(** * Timecode to SRT converter: a shallow embedding of [script.js]

    The conversion core of the page script ([framesToMilliseconds],
    [convertTimecode], [parseAndConvert], [convertToSRT]) is embedded as
    executable Rocq functions.  JavaScript strings are sequences of UTF-16
    code units, JavaScript numbers are IEEE 754 binary64 values (Rocq's
    primitive floats), a [throw] is the [Throw] constructor of [result]
    carrying the error's message. *)

From Stdlib Require Import String Ascii.
From Stdlib Require Import ZArith NArith List Bool Lia DecimalPos.
From Stdlib Require Import Floats.PrimFloat Floats.FloatOps Floats.SpecFloat.
From Stdlib Require Import Floats.FloatAxioms.
From Stdlib Require Uint63.
Import ListNotations.

(* ================================================================= *)
(** ** JavaScript strings *)

Module JSString.

(** A UTF-16 code unit. *)
Definition char := N.
Definition jsstring := list char.

(** An ASCII literal as a JavaScript string. *)
Definition lit (s : string) : jsstring :=
  map N_of_ascii (list_ascii_of_string s).

Definition LF : char := 10%N.
Definition zero_digit : char := 48%N.
Definition semicolon : char := 59%N.
Definition colon : char := 58%N.
Definition comma : char := 44%N.
Definition hyphen : char := 45%N.
Definition en_dash : char := 8211%N.
Definition em_dash : char := 8212%N.

(** [WhiteSpace] and [LineTerminator] of ECMAScript: what [trim] strips and
    what the regular expression class [\s] accepts. *)
Definition isWhiteSpace (c : char) : bool :=
  ((9 <=? c) && (c <=? 13) || (c =? 32) || (c =? 160) || (c =? 5760)
   || (8192 <=? c) && (c <=? 8202) || (c =? 8232) || (c =? 8233)
   || (c =? 8239) || (c =? 8287) || (c =? 12288) || (c =? 65279))%N.

(** The class [\d]. *)
Definition isDigit (c : char) : bool := ((48 <=? c) && (c <=? 57))%N.

(** The class [[;:]]. *)
Definition isSeparator (c : char) : bool :=
  ((c =? semicolon) || (c =? colon))%N.

(** The class [[-–—]]. *)
Definition isDash (c : char) : bool :=
  ((c =? hyphen) || (c =? en_dash) || (c =? em_dash))%N.

Fixpoint dropWhile (p : char -> bool) (s : jsstring) : jsstring :=
  match s with
  | [] => []
  | c :: s' => if p c then dropWhile p s' else s
  end.

Fixpoint takeWhile (p : char -> bool) (s : jsstring) : jsstring :=
  match s with
  | [] => []
  | c :: s' => if p c then c :: takeWhile p s' else []
  end.

Definition trimStart (s : jsstring) : jsstring := dropWhile isWhiteSpace s.
Definition trimEnd (s : jsstring) : jsstring :=
  List.rev (dropWhile isWhiteSpace (List.rev s)).

(** [String.prototype.trim]. *)
Definition trim (s : jsstring) : jsstring := trimEnd (trimStart s).

(** [String.prototype.split] for a separator that is one code unit of the
    class [p]: the pieces between the separators, in order; a string
    without separator is its own single piece. *)
Fixpoint splitBy (p : char -> bool) (s : jsstring) : list jsstring :=
  match s with
  | [] => [[]]
  | c :: s' =>
      if p c then [] :: splitBy p s'
      else match splitBy p s' with
           | [] => [[c]]
           | w :: ws => (c :: w) :: ws
           end
  end.

(** [s.padStart(n, fill)] for a one-unit filler. *)
Definition padStart (n : nat) (fill : char) (s : jsstring) : jsstring :=
  repeat fill (n - length s) ++ s.

Fixpoint startsWith (p s : jsstring) : bool :=
  match p, s with
  | [], _ => true
  | _ :: _, [] => false
  | a :: p', b :: s' => (a =? b)%N && startsWith p' s'
  end.

Fixpoint indexOf_from (i : Z) (sub s : jsstring) : Z :=
  if startsWith sub s then i
  else match s with
       | [] => (-1)%Z
       | _ :: s' => indexOf_from (i + 1) sub s'
       end.

(** [s.indexOf(sub)]: index of the first occurrence, [-1] when there is
    none. *)
Definition indexOf (s sub : jsstring) : Z := indexOf_from 0 sub s.

(** [s.substring(start)]: a negative start counts as [0], a start beyond
    the end gives the empty string. *)
Definition substring (s : jsstring) (start : Z) : jsstring :=
  skipn (Z.to_nat start) s.

(** [a.join(sep)]. *)
Fixpoint join (sep : jsstring) (l : list jsstring) : jsstring :=
  match l with
  | [] => []
  | [s] => s
  | s :: l' => s ++ sep ++ join sep l'
  end.

(** Decimal digits of a [Decimal.uint], most significant first. *)
Fixpoint ofUint (u : Decimal.uint) : jsstring :=
  match u with
  | Decimal.Nil => []
  | Decimal.D0 u => 48%N :: ofUint u
  | Decimal.D1 u => 49%N :: ofUint u
  | Decimal.D2 u => 50%N :: ofUint u
  | Decimal.D3 u => 51%N :: ofUint u
  | Decimal.D4 u => 52%N :: ofUint u
  | Decimal.D5 u => 53%N :: ofUint u
  | Decimal.D6 u => 54%N :: ofUint u
  | Decimal.D7 u => 55%N :: ofUint u
  | Decimal.D8 u => 56%N :: ofUint u
  | Decimal.D9 u => 57%N :: ofUint u
  end.

(** The decimal numeral of a natural number, ["0"] for zero. *)
Definition ofN (n : N) : jsstring := ofUint (N.to_uint n).

End JSString.
Import JSString.

(* ================================================================= *)
(** ** JavaScript numbers *)

Module JSNumber.

Local Open Scope Z_scope.

(** A Number is a binary64 value. *)
Definition number := float.

(** The Number nearest to an integer (ties to even). *)
Definition of_Z (z : Z) : number :=
  SF2Prim (binary_normalize prec emax z 0 false).

(** The Number nearest to the rational [p / q], for [0 <= p] and [0 < q]:
    the quotient is computed to more than 64 bits, a last bit records
    whether the division was exact, and that is rounded once. *)
Definition of_Q (p q : Z) : number :=
  let j := Z.max 0 (Z.log2 q - Z.log2 p + 66) in
  let (d, r) := Z.div_eucl (p * 2 ^ j) q in
  let m := 2 * d + (if r =? 0 then 0 else 1) in
  SF2Prim (binary_normalize prec emax m (- j - 1) false).

Definition digitsValue (ds : jsstring) : Z :=
  fold_left (fun acc c => 10 * acc + (Z.of_N c - 48)) ds 0.

(** [parseInt(s, 10)]: leading white space is skipped, a sign is read,
    then the longest run of decimal digits; [NaN] when there is none. *)
Definition parseInt (s : jsstring) : number :=
  let s := trimStart s in
  let '(negative, s) :=
    match s with
    | c :: s' =>
        if (c =? 45)%N then (true, s')
        else if (c =? 43)%N then (false, s')
        else (false, s)
    | [] => (false, [])
    end in
  match takeWhile isDigit s with
  | [] => nan
  | ds => if negative then PrimFloat.opp (of_Z (digitsValue ds))
          else of_Z (digitsValue ds)
  end.

(** [Math.round]: the integer nearest to [x], a tie going towards
    [+Infinity]; [NaN], the infinities and the zeros are returned as they
    are, and a negative [x] that rounds to zero gives [-0]. *)
Definition Math_round (x : number) : number :=
  match Prim2SF x with
  | S754_finite s m e =>
      if 0 <=? e then x
      else
        let num := if s then Z.neg m else Z.pos m in
        let den := 2 ^ (- e) in
        let n := (2 * num + den) / (2 * den) in
        if n =? 0 then (if s then neg_zero else zero) else of_Z n
  | _ => x
  end.

(** *** Number to string

    [Number::toString] in radix 10 writes a positive finite [x] with the
    fewest digits [s] (a [k]-digit integer) and an exponent [n] such that
    [s * 10^(n-k)] still reads back as [x]. *)

(** The candidate [sv * 10^ex] as a Number. *)
Definition candidate (sv ex : Z) : number :=
  if 0 <=? ex then of_Q (sv * 10 ^ ex) 1 else of_Q sv (10 ^ (- ex)).

(** With [x = P / Q] and [k] digits allowed: the [k]-digit numerals just
    below and just above [x], whichever reads back as [x] (the nearer one
    when both do, the even one on a tie). *)
Definition shortest_at (x : number) (P Q n0 k : Z) : option (Z * Z) :=
  let ex := n0 - k in
  let A := if 0 <=? ex then P else P * 10 ^ (- ex) in
  let B := if 0 <=? ex then Q * 10 ^ ex else Q in
  let lo := A / B in
  let r := A mod B in
  let hi := lo + 1 in
  let ok_lo := PrimFloat.eqb (candidate lo ex) x in
  let ok_hi := PrimFloat.eqb (candidate hi ex) x in
  match ok_lo, ok_hi with
  | true, true =>
      if 2 * r <? B then Some (lo, ex)
      else if B <? 2 * r then Some (hi, ex)
      else if Z.even lo then Some (lo, ex) else Some (hi, ex)
  | true, false => Some (lo, ex)
  | false, true => Some (hi, ex)
  | false, false => None
  end.

Fixpoint shortest_from (fuel : nat) (x : number) (P Q n0 k : Z) : Z * Z :=
  match fuel with
  | O => (P / Q, 0)
  | S fuel' =>
      match shortest_at x P Q n0 k with
      | Some r => r
      | None => shortest_from fuel' x P Q n0 (k + 1)
      end
  end.

(** The least [j >= 1] with [Q <= P * 10^j], for [P < Q]. *)
Fixpoint scale_up (fuel : nat) (P Q j : Z) : Z :=
  match fuel with
  | O => j
  | S fuel' => if Q <=? P * 10 ^ j then j else scale_up fuel' P Q (j + 1)
  end.

Definition numDigits (z : Z) : Z := Z.of_nat (length (ofN (Z.to_N z))).

(** [n0] with [10^(n0-1) <= P / Q < 10^n0]. *)
Definition magnitude (P Q : Z) : Z :=
  if Q <=? P then numDigits (P / Q) else 1 - scale_up 400 P Q 1.

Definition positiveToString (x : number) (m : positive) (e : Z) : jsstring :=
  let P := Z.pos m * 2 ^ Z.max e 0 in
  let Q := 2 ^ Z.max (- e) 0 in
  let '(s0, e0) := shortest_from 17 x P Q (magnitude P Q) 1 in
  let '(s, ex) := if s0 mod 10 =? 0 then (s0 / 10, e0 + 1) else (s0, e0) in
  let digits := ofN (Z.to_N s) in
  let k := Z.of_nat (length digits) in
  let n := k + ex in
  if (k <=? n) && (n <=? 21) then
    digits ++ repeat zero_digit (Z.to_nat (n - k))
  else if (0 <? n) && (n <=? 21) then
    firstn (Z.to_nat n) digits ++ lit "." ++ skipn (Z.to_nat n) digits
  else if (-6 <? n) && (n <=? 0) then
    lit "0." ++ repeat zero_digit (Z.to_nat (- n)) ++ digits
  else
    let expo := (if 0 <=? n - 1 then lit "+" else lit "-")
                ++ ofN (Z.to_N (Z.abs (n - 1))) in
    if k =? 1 then digits ++ lit "e" ++ expo
    else firstn 1 digits ++ lit "." ++ skipn 1 digits ++ lit "e" ++ expo.

(** [x.toString()]. *)
Definition toString (x : number) : jsstring :=
  match Prim2SF x with
  | S754_nan => lit "NaN"
  | S754_zero _ => lit "0"
  | S754_infinity s => (if s then lit "-" else []) ++ lit "Infinity"
  | S754_finite s m e =>
      (if s then lit "-" else []) ++ positiveToString (PrimFloat.abs x) m e
  end.

End JSNumber.
Import JSNumber.

(* ================================================================= *)
(** ** Regular expressions

    The fragment the script uses: sequences of quantified character
    classes and capturing groups, matched by backtracking.  [matchR r s]
    lists, in the order in which a backtracking matcher tries them, every
    way in which [r] matches a prefix of [s]: the text left after the match
    and the texts of the groups. *)

Module Regex.

Inductive regex : Type :=
| Atom (cls : char -> bool) (min : nat) (max : option nat)
| Seq (r1 r2 : regex)
| Group (r : regex).

(** [hi, hi-1, ..., lo]: a greedy quantifier tries the longest run first. *)
Definition downto (hi lo : nat) : list nat := rev (seq lo (S hi - lo)).

Fixpoint matchR (r : regex) (s : jsstring) : list (jsstring * list jsstring) :=
  match r with
  | Atom cls min max =>
      let avail := length (takeWhile cls s) in
      let most := match max with Some m => Nat.min m avail | None => avail end in
      map (fun n => (skipn n s, [])) (downto most min)
  | Seq r1 r2 =>
      flat_map (fun '(rest, caps1) =>
                  map (fun '(rest', caps2) => (rest', caps1 ++ caps2))
                      (matchR r2 rest))
               (matchR r1 s)
  | Group r1 =>
      map (fun '(rest, caps) =>
             (rest, firstn (length s - length rest) s :: caps))
          (matchR r1 s)
  end.

(** What [String.prototype.match] returns for a regular expression without
    the global flag: the position of the match, the matched text and the
    texts of the groups. *)
Record match_result : Type := {
  index : nat;
  matched : jsstring;
  groups : list jsstring
}.

(** [m[i]] for [i >= 1]. *)
Definition group (m : match_result) (i : nat) : jsstring :=
  nth (i - 1) (groups m) [].

(** The leftmost match: start positions are tried from left to right, and
    at each one the first way the matcher finds. *)
Fixpoint exec_from (r : regex) (i : nat) (s : jsstring) : option match_result :=
  match matchR r s with
  | (rest, caps) :: _ =>
      Some {| index := i;
              matched := firstn (length s - length rest) s;
              groups := caps |}
  | [] =>
      match s with
      | [] => None
      | _ :: s' => exec_from r (S i) s'
      end
  end.

Definition exec (r : regex) (s : jsstring) : option match_result :=
  exec_from r 0 s.

End Regex.
Import Regex.

(* ================================================================= *)
(** ** The converter *)

(** The outcome of a call that may [throw new Error(message)]. *)
Inductive result (A : Type) : Type :=
| Ok (a : A)
| Throw (message : jsstring).
Arguments Ok {A} a.
Arguments Throw {A} message.

Definition bind {A B : Type} (r : result A) (k : A -> result B) : result B :=
  match r with
  | Ok a => k a
  | Throw m => Throw m
  end.

Notation "x <- r ;; k" := (bind r (fun x => k))
  (at level 61, r at next level, right associativity).

Definition is_empty (s : jsstring) : bool :=
  match s with [] => true | _ => false end.

(** [framesToMilliseconds(frames, fps)]. *)
Definition framesToMilliseconds (frames fps : number) : number :=
  Math_round (PrimFloat.mul (PrimFloat.div frames fps) 1000%float).

Definition invalid_timecode (timecode : jsstring) : jsstring :=
  lit "Invalid timecode format: " ++ timecode.

(** [convertTimecode(timecode, fps)]. *)
Definition convertTimecode (timecode : jsstring) (fps : number) : result jsstring :=
  match splitBy isSeparator timecode with
  | [p0; p1; p2; p3] =>
      let hours := padStart 2 zero_digit p0 in
      let minutes := padStart 2 zero_digit p1 in
      let seconds := padStart 2 zero_digit p2 in
      let frames := parseInt p3 in
      let milliseconds := framesToMilliseconds frames fps in
      let msString := padStart 3 zero_digit (toString milliseconds) in
      Ok (hours ++ lit ":" ++ minutes ++ lit ":" ++ seconds ++ lit "," ++ msString)
  | _ => Throw (invalid_timecode timecode)
  end.

(** [\d{1,2}[;:]\d{1,2}[;:]\d{1,2}[;:]\d{1,2}] *)
Definition timecodeRegex : regex :=
  Seq (Atom isDigit 1 (Some 2)) (Seq (Atom isSeparator 1 (Some 1))
  (Seq (Atom isDigit 1 (Some 2)) (Seq (Atom isSeparator 1 (Some 1))
  (Seq (Atom isDigit 1 (Some 2)) (Seq (Atom isSeparator 1 (Some 1))
       (Atom isDigit 1 (Some 2))))))).

(** [(timecode)\s*[-–—]\s*(timecode)] *)
Definition timecodePattern : regex :=
  Seq (Group timecodeRegex)
 (Seq (Atom isWhiteSpace 0 None)
 (Seq (Atom isDash 1 (Some 1))
 (Seq (Atom isWhiteSpace 0 None)
      (Group timecodeRegex)))).

(** A subtitle object: [text] is absent until the subtitle is saved. *)
Record subtitle : Type := {
  startTime : jsstring;
  endTime : jsstring;
  text : option jsstring
}.

(** The variables of the scanning loop. *)
Record state : Type := {
  subtitles : list subtitle;
  currentSubtitle : option subtitle;
  subtitleText : list jsstring
}.

Definition initial : state :=
  {| subtitles := []; currentSubtitle := None; subtitleText := [] |}.

Definition with_text (c : subtitle) (lines : list jsstring) : subtitle :=
  {| startTime := startTime c; endTime := endTime c;
     text := Some (join [LF] lines) |}.

Definition parse_error (i : nat) (message : jsstring) : jsstring :=
  lit "Error parsing timecode on line " ++ ofN (N.of_nat (i + 1))
  ++ lit ": " ++ message.

Definition no_timecodes : jsstring :=
  lit "No valid timecodes found in the input. Please check the format.".

(** The text after the time codes, as the loop body computes it. *)
Definition afterTimecode (line : jsstring) (m : match_result) : jsstring :=
  trim (substring line
          (indexOf line (group m 2) + Z.of_nat (length (group m 2)))).

(** One iteration of the loop over the lines, for the line of index [i]. *)
Definition step (fps : number) (i : nat) (st : state) (raw : jsstring)
  : result state :=
  let line := trim raw in
  if is_empty line then
    match currentSubtitle st, subtitleText st with
    | Some cur, _ :: _ =>
        Ok {| subtitles := subtitles st ++ [with_text cur (subtitleText st)];
              currentSubtitle := None;
              subtitleText := [] |}
    | _, _ => Ok st
    end
  else
    match exec timecodePattern line with
    | Some m =>
        let '(saved, pending) :=
          match currentSubtitle st, subtitleText st with
          | Some cur, _ :: _ =>
              (subtitles st ++ [with_text cur (subtitleText st)], [])
          | _, _ => (subtitles st, subtitleText st)
          end in
        match
          (s <- convertTimecode (group m 1) fps ;;
           e <- convertTimecode (group m 2) fps ;;
           Ok {| startTime := s; endTime := e; text := None |})
        with
        | Throw message => Throw (parse_error i message)
        | Ok cur =>
            let after := afterTimecode line m in
            Ok {| subtitles := saved;
                  currentSubtitle := Some cur;
                  subtitleText :=
                    if is_empty after then pending else pending ++ [after] |}
        end
    | None =>
        match currentSubtitle st with
        | Some _ =>
            Ok {| subtitles := subtitles st;
                  currentSubtitle := currentSubtitle st;
                  subtitleText := subtitleText st ++ [line] |}
        | None => Ok st
        end
    end.

Fixpoint loop (fps : number) (i : nat) (lines : list jsstring) (st : state)
  : result state :=
  match lines with
  | [] => Ok st
  | raw :: rest => st' <- step fps i st raw ;; loop fps (S i) rest st'
  end.

(** The subtitles saved once the loop is over: the last one is saved when
    it has text. *)
Definition finish (st : state) : list subtitle :=
  match currentSubtitle st, subtitleText st with
  | Some cur, _ :: _ => subtitles st ++ [with_text cur (subtitleText st)]
  | _, _ => subtitles st
  end.

(** The first part of [parseAndConvert]: the list [subtitles] when the
    scan is over. *)
Definition scan (input : jsstring) (fps : number) : result (list subtitle) :=
  let lines := splitBy (N.eqb LF) (trim input) in
  st <- loop fps 0 lines initial ;;
  Ok (finish st).

Definition text_of (c : subtitle) : jsstring :=
  match text c with
  | Some t => t
  | None => lit "undefined"
  end.

(** The body of the [forEach] for the subtitle of index [index]. *)
Definition entry (index : nat) (c : subtitle) : jsstring :=
  ofN (N.of_nat (index + 1)) ++ [LF]
  ++ startTime c ++ lit " --> " ++ endTime c ++ [LF]
  ++ text_of c ++ [LF]
  ++ [LF].

Fixpoint emit_from (index : nat) (l : list subtitle) : jsstring :=
  match l with
  | [] => []
  | c :: l' => entry index c ++ emit_from (S index) l'
  end.

(** [parseAndConvert(input, fps)]. *)
Definition parseAndConvert (input : jsstring) (fps : number) : result jsstring :=
  subs <- scan input fps ;;
  if Nat.eqb (length subs) 0 then Throw no_timecodes
  else Ok (trim (emit_from 0 subs)).

(** *** The page around the converter *)

(** [s.split(sep).length] for a non-empty separator string: one more than
    the number of occurrences of [sep], counted from the left without
    overlap.  [skip] is the number of code units of an occurrence still to
    be passed. *)
Fixpoint count_pieces (sep : jsstring) (skip : nat) (s : jsstring) : nat :=
  match s with
  | [] => 1
  | _ :: s' =>
      match skip with
      | S k => count_pieces sep k s'
      | O => if startsWith sep s
             then S (count_pieces sep (length sep - 1) s')
             else count_pieces sep 0 s'
      end
  end.

(** What [convertToSRT] reads and writes of the document: the value of the
    output area and the status message element. *)
Record page : Type := {
  outputText_value : jsstring;
  statusMessage_textContent : jsstring;
  statusMessage_className : jsstring
}.

(** [showStatus(message, type)]. *)
Definition showStatus (message type : jsstring) (p : page) : page :=
  {| outputText_value := outputText_value p;
     statusMessage_textContent := message;
     statusMessage_className := lit "status-message " ++ type |}.

Definition set_output (v : jsstring) (p : page) : page :=
  {| outputText_value := v;
     statusMessage_textContent := statusMessage_textContent p;
     statusMessage_className := statusMessage_className p |}.

Definition empty_input : jsstring :=
  lit "Please enter or upload a transcript to convert.".

Definition converted (srtOutput : jsstring) : jsstring :=
  lit "Successfully converted! Found "
  ++ ofN (N.of_nat (count_pieces [LF; LF] 0 srtOutput))
  ++ lit " subtitle entries.".

(** [convertToSRT()], for the value [inputText_value] of the input area and
    the frame rate [fps] that [parseFloat] reads from the selector. *)
Definition convertToSRT (inputText_value : jsstring) (fps : number) (p : page)
  : page :=
  let input := trim inputText_value in
  if is_empty input then showStatus empty_input (lit "error") p
  else
    match parseAndConvert input fps with
    | Ok srtOutput =>
        showStatus (converted srtOutput) (lit "success")
                   (set_output srtOutput p)
    | Throw message =>
        set_output [] (showStatus message (lit "error") p)
    end.

(* ================================================================= *)
(** ** Vocabulary of the statements *)

(** [Matches r w caps]: the regular expression [r] matches exactly the
    text [w], its groups capturing [caps]. *)
Inductive Matches : regex -> jsstring -> list jsstring -> Prop :=
| Matches_Atom cls min max w :
    Forall (fun c => cls c = true) w ->
    min <= length w ->
    (forall m, max = Some m -> length w <= m) ->
    Matches (Atom cls min max) w []
| Matches_Seq r1 r2 w1 w2 caps1 caps2 :
    Matches r1 w1 caps1 -> Matches r2 w2 caps2 ->
    Matches (Seq r1 r2) (w1 ++ w2) (caps1 ++ caps2)
| Matches_Group r w caps :
    Matches r w caps -> Matches (Group r) w (w :: caps).

(** One or two decimal digits. *)
Definition digits12 (w : jsstring) : Prop :=
  Forall (fun c => isDigit c = true) w /\ 1 <= length w <= 2.

(** The shape of a time code: four groups of one or two digits separated
    by [;] or [:]. *)
Definition timecode_shape (w : jsstring) : Prop :=
  exists h m s f s1 s2 s3,
    w = h ++ s1 :: m ++ s2 :: s ++ s3 :: f
    /\ digits12 h /\ digits12 m /\ digits12 s /\ digits12 f
    /\ isSeparator s1 = true /\ isSeparator s2 = true
    /\ isSeparator s3 = true.

(** Two code units are interchangeable when they are equal or both are
    component separators; two strings when they are so unit by unit, that
    is, when they are the same once every [:] is written [;]. *)
Definition sep_equiv_char (a b : char) : Prop :=
  a = b \/ (isSeparator a = true /\ isSeparator b = true).

Definition unify_separator (c : char) : char :=
  if isSeparator c then semicolon else c.

Definition sep_equiv (s t : jsstring) : Prop :=
  map unify_separator s = map unify_separator t.

(** Two outcomes of the matcher that differ in their separators only. *)
Definition outcome_equiv (a b : jsstring * list jsstring) : Prop :=
  sep_equiv (fst a) (fst b) /\ Forall2 sep_equiv (snd a) (snd b).

(** A class that takes [;] and [:] for the same. *)
Definition sep_blind (cls : char -> bool) : Prop :=
  forall a b, sep_equiv_char a b -> cls a = cls b.

Fixpoint regex_sep_blind (r : regex) : Prop :=
  match r with
  | Atom cls _ _ => sep_blind cls
  | Seq r1 r2 => regex_sep_blind r1 /\ regex_sep_blind r2
  | Group r1 => regex_sep_blind r1
  end.

Definition no_separator (w : jsstring) : Prop :=
  Forall (fun c => isSeparator c = false) w.

(** A time stamp that is the conversion of a text of the time code
    shape. *)
Definition converted_timecode (fps : number) (ts : jsstring) : Prop :=
  exists tc, timecode_shape tc /\ convertTimecode tc fps = Ok ts.

Definition timed (fps : number) (c : subtitle) : Prop :=
  converted_timecode fps (startTime c) /\ converted_timecode fps (endTime c).

Definition nonempty_lines (lines : list jsstring) : Prop :=
  lines <> [] /\ Forall (fun l => l <> []) lines.

(** A saved subtitle: its text is the join of at least one line, none of
    them empty. *)
Definition has_text (c : subtitle) : Prop :=
  exists lines, nonempty_lines lines /\ text c = Some (join [LF] lines).

(** What holds of the loop variables before and after every iteration. *)
Record invariant (fps : number) (st : state) : Prop := {
  inv_saved : Forall (fun c => timed fps c /\ has_text c) (subtitles st);
  inv_current : forall c, currentSubtitle st = Some c -> timed fps c;
  inv_text : Forall (fun l => l <> []) (subtitleText st)
}.

(** The sample transcript of the documentation. *)
Definition sample_input : jsstring :=
  lit "00;00;03;15 - 00;00;06;20" ++ [LF] ++ lit "Hello world" ++ [LF] ++ [LF]
  ++ lit "00;00;06;21 - 00;00;09;10" ++ [LF] ++ lit "Second line".

(** A pair whose two time codes are the same text, followed by a text. *)
Definition repeated_timecode_line : jsstring :=
  lit "00;00;03;15 - 00;00;03;15 Hello".

(** A pair line without text, directly followed by another pair line. *)
Definition consecutive_pairs : jsstring :=
  lit "00;00;03;15 - 00;00;03;15" ++ [LF]
  ++ lit "00;00;06;21 - 00;00;09;10" ++ [LF] ++ lit "Second line".

(** A line whose first time code has three components only. *)
Definition three_component_line : jsstring :=
  lit "00;00;03 - 00;00;06;20".

Definition mixed_separators : jsstring := lit "00:00:03;15 - 00;00;06:20".
Definition uniform_separators : jsstring := lit "00;00;03;15 - 00;00;06;20".

Definition blank_input : jsstring := lit "  " ++ [LF] ++ lit " ".

Definition some_page : page :=
  {| outputText_value := lit "previous output";
     statusMessage_textContent := [];
     statusMessage_className := lit "status-message" |}.

(** Further vocabulary: lines, blocks of the document, pair lines. *)

(** A text without line feed. *)
Definition lf_free (s : jsstring) : Prop :=
  Forall (fun c => (c =? LF)%N = false) s.

(** A line as the loop stores it: not empty, without line feed, and with
    no white space at either end. *)
Definition clean_line (l : jsstring) : Prop :=
  l <> [] /\ lf_free l /\ trim l = l.

(** A saved subtitle whose text is made of clean lines. *)
Definition clean_text (c : subtitle) : Prop :=
  exists lines,
    lines <> [] /\ Forall clean_line lines /\ text c = Some (join [LF] lines).

Record text_invariant (st : state) : Prop := {
  tinv_saved : Forall clean_text (subtitles st);
  tinv_text : Forall clean_line (subtitleText st)
}.

(** The block of a subtitle in the document: its entry without the two
    line feeds that end it. *)
Definition block (index : nat) (c : subtitle) : jsstring :=
  ofN (N.of_nat (index + 1)) ++ [LF]
  ++ startTime c ++ lit " --> " ++ endTime c ++ [LF]
  ++ text_of c.

Fixpoint blocks_from (index : nat) (l : list subtitle) : list jsstring :=
  match l with
  | [] => []
  | c :: l' => block index c :: blocks_from (S index) l'
  end.

(** A line on which the loop finds a pair of time codes. *)
Definition is_pair_line (raw : jsstring) : bool :=
  match exec timecodePattern (trim raw) with
  | Some _ => true
  | None => false
  end.

(** The code units that the text of a number can hold. *)
Definition number_char (c : char) : bool :=
  isDigit c || existsb (N.eqb c) (lit "-.e+NaInfity").

Definition number_chars (s : jsstring) : Prop :=
  Forall (fun c => number_char c = true) s.

(** The frame rates that the page offers (the list of the README), as
    [parseFloat] reads them. *)
Definition supported_rates : list number :=
  [of_Q 23976 1000; of_Z 24; of_Z 25; of_Q 2997 100;
   of_Z 30; of_Z 50; of_Q 5994 100; of_Z 60].

(** The texts of one or two digits. *)
Definition digit_units : list char :=
  [48; 49; 50; 51; 52; 53; 54; 55; 56; 57]%N.

Definition frame_texts : list jsstring :=
  map (fun d => [d]) digit_units
  ++ map (fun '(a, b) => [a; b]) (list_prod digit_units digit_units).

(** The millisecond text of a frame text that lies below the frame rate
    is made of at most three digits. *)
Definition milliseconds_fit (fps : number) (f : jsstring) : bool :=
  if PrimFloat.ltb (parseInt f) fps then
    let ms := toString (framesToMilliseconds (parseInt f) fps) in
    (length ms <=? 3) && forallb isDigit ms
  else true.

(** A text that begins, or ends, with a code unit that is no white
    space. *)
Definition starts_solid (s : jsstring) : Prop :=
  exists a t, s = a :: t /\ isWhiteSpace a = false.

Definition ends_solid (s : jsstring) : Prop :=
  exists t c, s = t ++ [c] /\ isWhiteSpace c = false.

(** A text made of non-empty pieces without line feed, with one line feed
    between two pieces: it holds no empty line. *)
Definition spaced (b : jsstring) : Prop :=
  exists pieces,
    pieces <> [] /\ Forall (fun q => q <> [] /\ lf_free q) pieces
    /\ b = join [LF] pieces.

(** The document of the sample transcript at 24 frames per second. *)
Definition sample_document : jsstring :=
  lit "1" ++ [LF]
  ++ lit "00:00:03,625 --> 00:00:06,833" ++ [LF]
  ++ lit "Hello world" ++ [LF]
  ++ [LF]
  ++ lit "2" ++ [LF]
  ++ lit "00:00:06,875 --> 00:00:09,417" ++ [LF]
  ++ lit "Second line".

Definition CR : char := 13%N.

(** The same text with Windows line ends: a carriage return before every
    line feed. *)
Definition to_crlf (s : jsstring) : jsstring :=
  flat_map (fun c => if (c =? LF)%N then [CR; LF] else [c]) s.

(** The page after a conversion that found the subtitles [subs]. *)
Definition success_page (subs : list subtitle) : page :=
  {| outputText_value := join [LF; LF] (blocks_from 0 subs);
     statusMessage_textContent :=
       lit "Successfully converted! Found "
       ++ ofN (N.of_nat (length subs)) ++ lit " subtitle entries.";
     statusMessage_className := lit "status-message success" |}.

(** The subtitles that a state of the loop has started: the saved ones
    and the one in progress. *)
Definition started (st : state) : nat :=
  length (subtitles st)
  + match currentSubtitle st with Some _ => 1 | None => 0 end.

(** A state of the loop in the middle of a cue, for the examples. *)
Definition state_in_cue : state :=
  {| subtitles := [];
     currentSubtitle :=
       Some {| startTime := lit "00:00:03,625"; endTime := lit "00:00:06,833";
               text := None |};
     subtitleText := [lit "Hello world"] |}.






(** A pair that starts and ends at the same time code, with the same
    separators throughout and with a colon in the first time code. *)
Definition repeated_pair_uniform : jsstring := lit "00;00;03;15 - 00;00;03;15".
Definition repeated_pair_mixed : jsstring := lit "00:00:03;15 - 00;00;03;15".

(* ================================================================= *)
(** ** The library functions on small inputs *)

Example trim_both_ends : trim (lit "  a b  ") = lit "a b".
Proof. reflexivity. Qed.

Example split_on_separators :
  splitBy isSeparator (lit "00;00:3;") = [lit "00"; lit "00"; lit "3"; []].
Proof. reflexivity. Qed.

Example padStart_short : padStart 2 zero_digit (lit "9") = lit "09".
Proof. reflexivity. Qed.

Example padStart_wide : padStart 3 zero_digit (lit "1250") = lit "1250".
Proof. reflexivity. Qed.

Example indexOf_first : indexOf (lit "abcabc") (lit "ca") = 2%Z.
Proof. reflexivity. Qed.

Example indexOf_absent : indexOf (lit "ab") (lit "x") = (-1)%Z.
Proof. reflexivity. Qed.

Example parseInt_digits : toString (parseInt (lit "15")) = lit "15".
Proof. vm_compute. reflexivity. Qed.

Example parseInt_prefix : toString (parseInt (lit " -7x")) = lit "-7".
Proof. vm_compute. reflexivity. Qed.

Example parseInt_none : toString (parseInt []) = lit "NaN".
Proof. vm_compute. reflexivity. Qed.

Example round_tie_up : toString (Math_round (of_Q 5 2)) = lit "3".
Proof. vm_compute. reflexivity. Qed.

Example round_below_half :
  toString (Math_round (PrimFloat.div (of_Z 1250) (of_Z 3))) = lit "417".
Proof. vm_compute. reflexivity. Qed.

Example toString_fraction : toString (of_Q 1 10) = lit "0.1".
Proof. vm_compute. reflexivity. Qed.

Example toString_large : toString (of_Z (2 ^ 64)) = lit "18446744073709552000".
Proof. vm_compute. reflexivity. Qed.

Example toString_exponent : toString (of_Z (10 ^ 21)) = lit "1e+21".
Proof. vm_compute. reflexivity. Qed.

Example toString_division_by_zero :
  toString (PrimFloat.div (of_Z 30) (of_Z 0)) = lit "Infinity".
Proof. vm_compute. reflexivity. Qed.

Example frames_at_24 :
  toString (framesToMilliseconds (of_Z 20) 24%float) = lit "833".
Proof. vm_compute. reflexivity. Qed.

Example match_leftmost :
  exec timecodePattern (lit "x 100:0:75;30-1:2:3:456 tail")
  = Some {| index := 3;
            matched := lit "00:0:75;30-1:2:3:45";
            groups := [lit "00:0:75;30"; lit "1:2:3:45"] |}.
Proof. vm_compute. reflexivity. Qed.

Example match_needs_four_components :
  exec timecodePattern (lit "00;00;03 - 00;00;06;20") = None.
Proof. vm_compute. reflexivity. Qed.

Example count_pieces_two : count_pieces [LF; LF] 0 (lit "a" ++ [LF; LF; LF] ++ lit "b") = 2.
Proof. reflexivity. Qed.

(* ================================================================= *)
(** ** Strings: splitting and padding *)

Section Strings.

Variable p : char -> bool.

Lemma splitBy_not_nil (s : jsstring) : splitBy p s <> [].
Proof.
  destruct s as [|c s]; simpl; [discriminate|].
  destruct (p c); [discriminate|].
  destruct (splitBy p s); discriminate.
Qed.

Lemma splitBy_clean (w : jsstring) :
  Forall (fun c => p c = false) w -> splitBy p w = [w].
Proof.
  induction 1 as [|c w Hc _ IH]; simpl; [reflexivity|].
  now rewrite Hc, IH.
Qed.

Lemma splitBy_app (w rest : jsstring) (c : char) :
  Forall (fun c => p c = false) w -> p c = true ->
  splitBy p (w ++ c :: rest) = w :: splitBy p rest.
Proof.
  intros Hw Hc. induction Hw as [|d w Hd _ IH]; simpl.
  - now rewrite Hc.
  - now rewrite Hd, IH.
Qed.

End Strings.

Lemma padStart_long (n : nat) (fill : char) (s : jsstring) :
  n <= length s -> padStart n fill s = s.
Proof.
  intros H. unfold padStart. now replace (n - length s) with 0 by lia.
Qed.

Lemma padStart_length (n : nat) (fill : char) (s : jsstring) :
  length (padStart n fill s) = Nat.max n (length s).
Proof.
  unfold padStart. rewrite length_app, repeat_length. lia.
Qed.

Lemma padStart_idempotent (n : nat) (fill : char) (s : jsstring) :
  padStart n fill (padStart n fill s) = padStart n fill s.
Proof. apply padStart_long. rewrite padStart_length. lia. Qed.

Lemma padStart_Forall (P : char -> Prop) (n : nat) (fill : char) (s : jsstring) :
  P fill -> Forall P s -> Forall P (padStart n fill s).
Proof.
  intros Hf Hs. unfold padStart. apply Forall_app. split; [|exact Hs].
  apply Forall_forall. intros x Hx. apply repeat_spec in Hx. now subst.
Qed.

Lemma digit_not_separator (c : char) : isDigit c = true -> isSeparator c = false.
Proof.
  unfold isDigit, isSeparator, semicolon, colon. intros H.
  apply andb_true_iff in H. destruct H as [H1 H2].
  apply N.leb_le in H1, H2.
  apply orb_false_iff. split; apply N.eqb_neq; lia.
Qed.

Lemma digits_no_separator (w : jsstring) :
  Forall (fun c => isDigit c = true) w -> no_separator w.
Proof.
  unfold no_separator. intros H. eapply Forall_impl; [|exact H].
  intros c. apply digit_not_separator.
Qed.

Lemma timecode_shape_split (w : jsstring) :
  timecode_shape w ->
  exists h m s f,
    splitBy isSeparator w = [h; m; s; f]
    /\ digits12 h /\ digits12 m /\ digits12 s /\ digits12 f.
Proof.
  intros (h & m & s & f & s1 & s2 & s3 & -> & Hh & Hm & Hs & Hf & H1 & H2 & H3).
  exists h, m, s, f. split; [|tauto].
  rewrite !splitBy_app, splitBy_clean; auto;
    apply digits_no_separator; unfold digits12 in *; tauto.
Qed.

(* ================================================================= *)
(** ** The matcher finds only matches *)

Lemma downto_In (hi lo n : nat) : In n (downto hi lo) <-> lo <= n <= hi.
Proof.
  unfold downto. rewrite <- in_rev, in_seq. lia.
Qed.

Lemma takeWhile_firstn (cls : char -> bool) (s : jsstring) (n : nat) :
  n <= length (takeWhile cls s) ->
  Forall (fun c => cls c = true) (firstn n s) /\ length (firstn n s) = n.
Proof.
  revert n. induction s as [|c s IH]; intros n Hn; simpl in Hn.
  - assert (n = 0) by lia. subst. simpl. auto.
  - destruct n as [|n]; [simpl; auto|].
    destruct (cls c) eqn:Hc; simpl in Hn; [|lia].
    destruct (IH n) as [H1 H2]; [lia|].
    simpl. split; [constructor; assumption | now rewrite H2].
Qed.

Lemma firstn_consumed (w rest : jsstring) :
  firstn (length (w ++ rest) - length rest) (w ++ rest) = w.
Proof.
  replace (length (w ++ rest) - length rest) with (length w)
    by (rewrite length_app; lia).
  rewrite firstn_app, firstn_all, Nat.sub_diag. simpl. apply app_nil_r.
Qed.

Lemma matchR_sound (r : regex) :
  forall s rest caps,
    In (rest, caps) (matchR r s) ->
    exists w, s = w ++ rest /\ Matches r w caps.
Proof.
  induction r as [cls min max | r1 IH1 r2 IH2 | r IH]; intros s rest caps H;
    simpl in H.
  - apply in_map_iff in H. destruct H as (n & E & Hn). inversion E; subst.
    apply downto_In in Hn.
    destruct (takeWhile_firstn cls s n) as [Hall Hlen].
    { destruct max; lia. }
    exists (firstn n s). split; [symmetry; apply firstn_skipn|].
    constructor; [assumption | lia |].
    intros m ->. lia.
  - apply in_flat_map in H. destruct H as ([rest1 caps1] & H1 & H2).
    apply in_map_iff in H2. destruct H2 as ([rest2 caps2] & E & H2).
    inversion E; subst.
    destruct (IH1 _ _ _ H1) as (w1 & -> & M1).
    destruct (IH2 _ _ _ H2) as (w2 & -> & M2).
    exists (w1 ++ w2). split; [now rewrite app_assoc|].
    now constructor.
  - apply in_map_iff in H. destruct H as ([rest1 caps1] & E & H).
    inversion E; subst.
    destruct (IH _ _ _ H) as (w & -> & M).
    exists w. split; [reflexivity|].
    rewrite firstn_consumed. now constructor.
Qed.

Lemma exec_from_unfold (r : regex) (i : nat) (s : jsstring) :
  exec_from r i s =
  match matchR r s with
  | (rest, caps) :: _ =>
      Some {| index := i;
              matched := firstn (length s - length rest) s;
              groups := caps |}
  | [] => match s with
          | [] => None
          | _ :: s' => exec_from r (S i) s'
          end
  end.
Proof. destruct s; reflexivity. Qed.

Lemma exec_from_sound (r : regex) :
  forall s i m,
    exec_from r i s = Some m ->
    exists pre rest,
      s = pre ++ matched m ++ rest
      /\ index m = i + length pre
      /\ Matches r (matched m) (groups m).
Proof.
  induction s as [|c s IH]; intros i m H; rewrite exec_from_unfold in H.
  - destruct (matchR r []) as [|[rest caps] l] eqn:E; [discriminate|].
    destruct (matchR_sound r [] rest caps) as (w & Hw & M).
    { rewrite E. now left. }
    symmetry in Hw. apply app_eq_nil in Hw. destruct Hw; subst.
    inversion H; subst; clear H. simpl.
    exists [], []. simpl. repeat split; [lia | assumption].
  - remember (c :: s) as cs eqn:Ecs.
    destruct (matchR r cs) as [|[rest caps] l] eqn:E.
    + subst cs. destruct (IH _ _ H) as (pre & rest & -> & Hi & M).
      exists (c :: pre), rest. simpl. repeat split; [lia | assumption].
    + destruct (matchR_sound r cs rest caps) as (w & Hw & M).
      { rewrite E. now left. }
      rewrite Hw, firstn_consumed in H.
      injection H as <-. cbn [matched groups index].
      exists [], rest. repeat split; [assumption | simpl; lia | assumption].
Qed.

Lemma Matches_one (cls : char -> bool) (w : jsstring) (caps : list jsstring) :
  Matches (Atom cls 1 (Some 1)) w caps ->
  exists c, w = [c] /\ cls c = true /\ caps = [].
Proof.
  intros H. inversion H as [? ? ? ? Hall Hmin Hmax | |]; subst.
  specialize (Hmax 1 eq_refl).
  destruct w as [|c [|d w]]; simpl in *; try lia.
  exists c. repeat split. now inversion Hall.
Qed.

Lemma Matches_digits12 (w : jsstring) (caps : list jsstring) :
  Matches (Atom isDigit 1 (Some 2)) w caps -> digits12 w /\ caps = [].
Proof.
  intros H. inversion H as [? ? ? ? Hall Hmin Hmax | |]; subst.
  specialize (Hmax 2 eq_refl). unfold digits12. auto.
Qed.

Ltac invert_matches :=
  repeat match goal with
         | H : Matches (Seq _ _) _ _ |- _ => inversion H; subst; clear H
         | H : Matches (Group _) _ _ |- _ => inversion H; subst; clear H
         | H : Matches (Atom _ 1 (Some 1)) _ _ |- _ =>
             apply Matches_one in H; destruct H as (? & -> & ? & ->)
         | H : Matches (Atom isDigit 1 (Some 2)) _ _ |- _ =>
             apply Matches_digits12 in H; destruct H as (? & ->)
         end.

Lemma timecodeRegex_shape (w : jsstring) (caps : list jsstring) :
  Matches timecodeRegex w caps -> caps = [] /\ timecode_shape w.
Proof.
  unfold timecodeRegex. intros H. invert_matches.
  split; [reflexivity|].
  unfold timecode_shape. do 7 eexists.
  split; [simpl; reflexivity | repeat (split; [eassumption|]); eassumption].
Qed.

Lemma timecodePattern_groups (w : jsstring) (caps : list jsstring) :
  Matches timecodePattern w caps ->
  exists t1 t2, caps = [t1; t2] /\ timecode_shape t1 /\ timecode_shape t2.
Proof.
  unfold timecodePattern. intros H.
  inversion H as [| ? ? ? ? ? ? Hg1 H1 |]; subst; clear H.
  inversion Hg1; subst; clear Hg1.
  inversion H1 as [| ? ? ? ? ? ? Hs1 H2 |]; subst; clear H1.
  inversion Hs1; subst; clear Hs1.
  inversion H2 as [| ? ? ? ? ? ? Hd H3 |]; subst; clear H2.
  inversion Hd; subst; clear Hd.
  inversion H3 as [| ? ? ? ? ? ? Hs2 Hg2 |]; subst; clear H3.
  inversion Hs2; subst; clear Hs2.
  inversion Hg2; subst; clear Hg2.
  repeat match goal with
         | H : Matches timecodeRegex _ _ |- _ =>
             apply timecodeRegex_shape in H; destruct H as [-> ?]
         | H : Matches (Seq (Atom isDigit _ _) _) _ _ |- _ =>
             change (Matches timecodeRegex _ _) in H
         end.
  simpl. eauto.
Qed.

Lemma exec_timecodePattern (line : jsstring) (m : match_result) :
  exec timecodePattern line = Some m ->
  timecode_shape (group m 1) /\ timecode_shape (group m 2).
Proof.
  intros H. apply exec_from_sound in H.
  destruct H as (pre & rest & _ & _ & M).
  apply timecodePattern_groups in M. destruct M as (t1 & t2 & E & S1 & S2).
  unfold group. rewrite E. simpl. auto.
Qed.

(* ================================================================= *)
(** ** The conversion of a matched time code *)

Lemma convertTimecode_split (tc : jsstring) (fps : number) (h m s f : jsstring) :
  splitBy isSeparator tc = [h; m; s; f] ->
  convertTimecode tc fps =
  Ok (padStart 2 zero_digit h ++ lit ":" ++ padStart 2 zero_digit m ++ lit ":"
      ++ padStart 2 zero_digit s ++ lit ","
      ++ padStart 3 zero_digit
           (toString (Math_round
              (PrimFloat.mul (PrimFloat.div (parseInt f) fps) 1000%float)))).
Proof.
  intros H. unfold convertTimecode. rewrite H. reflexivity.
Qed.

Lemma convertTimecode_shape (tc : jsstring) (fps : number) :
  timecode_shape tc -> exists ts, convertTimecode tc fps = Ok ts.
Proof.
  intros H. apply timecode_shape_split in H.
  destruct H as (h & m & s & f & H & _).
  eexists. apply (convertTimecode_split _ _ _ _ _ _ H).
Qed.

(* ================================================================= *)
(** ** The scan *)

Lemma with_text_timed (fps : number) (c : subtitle) (lines : list jsstring) :
  timed fps c -> timed fps (with_text c lines).
Proof. intros H. exact H. Qed.

Lemma with_text_has_text (c : subtitle) (lines : list jsstring) :
  nonempty_lines lines -> has_text (with_text c lines).
Proof. intros H. exists lines. split; [exact H | reflexivity]. Qed.

Lemma is_empty_false (s : jsstring) : is_empty s = false -> s <> [].
Proof. destruct s; [discriminate | intros _; discriminate]. Qed.

Lemma invariant_initial (fps : number) : invariant fps initial.
Proof.
  constructor; simpl; [constructor | discriminate | constructor].
Qed.

Lemma invariant_save (fps : number) (st : state) (cur : subtitle) :
  invariant fps st -> currentSubtitle st = Some cur ->
  subtitleText st <> [] ->
  Forall (fun c => timed fps c /\ has_text c)
         (subtitles st ++ [with_text cur (subtitleText st)]).
Proof.
  intros [Hs Hc Ht] Hcur Hne. apply Forall_app. split; [exact Hs|].
  constructor; [|constructor]. split.
  - apply with_text_timed. now apply Hc.
  - apply with_text_has_text. split; assumption.
Qed.

Lemma step_ok (fps : number) (i : nat) (st : state) (raw : jsstring) :
  invariant fps st ->
  exists st', step fps i st raw = Ok st' /\ invariant fps st'.
Proof.
  intros Inv. unfold step.
  destruct (is_empty (trim raw)) eqn:Hline.
  - destruct (currentSubtitle st) as [cur|] eqn:Hcur;
      [destruct (subtitleText st) as [|t ts] eqn:Htext|];
      eexists; (split; [reflexivity|]); try exact Inv.
    constructor; simpl; [|discriminate|constructor].
    rewrite <- Htext. apply invariant_save; auto. rewrite Htext. discriminate.
  - destruct (exec timecodePattern (trim raw)) as [m|] eqn:Hm.
    + destruct (exec_timecodePattern _ _ Hm) as [S1 S2].
      destruct (convertTimecode_shape _ fps S1) as (ts1 & E1).
      destruct (convertTimecode_shape _ fps S2) as (ts2 & E2).
      assert (Hnew : timed fps {| startTime := ts1; endTime := ts2; text := None |}).
      { split; simpl; eexists; eauto. }
      rewrite E1, E2. cbn [bind].
      assert (Hafter : forall pending,
                 Forall (fun l => l <> []) pending ->
                 Forall (fun l => l <> [])
                   (if is_empty (afterTimecode (trim raw) m) then pending
                    else pending ++ [afterTimecode (trim raw) m])).
      { intros pending Hp.
        destruct (is_empty (afterTimecode (trim raw) m)) eqn:Ha; [exact Hp|].
        apply Forall_app. split; [exact Hp|].
        constructor; [now apply is_empty_false | constructor]. }
      destruct (currentSubtitle st) as [cur|] eqn:Hcur;
        [destruct (subtitleText st) as [|t ts] eqn:Htext|];
        eexists; (split; [reflexivity|]); constructor; cbn [subtitles currentSubtitle subtitleText];
        try (intros c Hc; injection Hc as <-; exact Hnew);
        try (apply Hafter; try constructor; rewrite <- ?Htext; apply Inv);
        try apply Inv.
      rewrite <- Htext. apply invariant_save; auto. rewrite Htext. discriminate.
    + destruct (currentSubtitle st) as [cur|] eqn:Hcur;
        eexists; (split; [reflexivity|]); try exact Inv.
      constructor; simpl;
        [apply Inv | intros c Hc; apply (inv_current _ _ Inv); congruence |].
      apply Forall_app. split; [apply Inv|].
      constructor; [now apply is_empty_false | constructor].
Qed.

Lemma loop_ok (fps : number) (lines : list jsstring) :
  forall i st,
    invariant fps st ->
    exists st', loop fps i lines st = Ok st' /\ invariant fps st'.
Proof.
  induction lines as [|raw rest IH]; intros i st Inv; simpl.
  - eauto.
  - destruct (step_ok fps i st raw Inv) as (st1 & -> & Inv1). simpl.
    apply IH, Inv1.
Qed.

Lemma finish_ok (fps : number) (st : state) :
  invariant fps st ->
  Forall (fun c => timed fps c /\ has_text c) (finish st).
Proof.
  intros Inv. unfold finish.
  destruct (currentSubtitle st) as [cur|] eqn:Hcur;
    [destruct (subtitleText st) as [|t ts] eqn:Htext|]; try apply Inv.
  rewrite <- Htext. apply invariant_save; auto. rewrite Htext. discriminate.
Qed.

Lemma scan_ok (input : jsstring) (fps : number) :
  exists subs,
    scan input fps = Ok subs
    /\ Forall (fun c => timed fps c /\ has_text c) subs.
Proof.
  unfold scan.
  destruct (loop_ok fps (splitBy (N.eqb LF) (trim input)) 0 initial
              (invariant_initial fps)) as (st & -> & Inv).
  simpl. eexists. split; [reflexivity|]. now apply finish_ok.
Qed.

Lemma loop_no_match (fps : number) (lines : list jsstring) :
  (forall raw, In raw lines -> exec timecodePattern (trim raw) = None) ->
  forall i, loop fps i lines initial = Ok initial.
Proof.
  induction lines as [|raw rest IH]; intros H i; simpl; [reflexivity|].
  assert (E : step fps i initial raw = Ok initial).
  { unfold step. destruct (is_empty (trim raw)); [reflexivity|].
    rewrite (H raw (or_introl eq_refl)). reflexivity. }
  rewrite E. simpl. apply IH. intros r Hr. apply H. now right.
Qed.

(* ================================================================= *)
(** ** The messages *)

Lemma first_unit_differs (s t : jsstring) : hd 0%N s <> hd 0%N t -> s <> t.
Proof. intros H E. apply H. now rewrite E. Qed.

Lemma no_timecodes_not_parse_error (i : nat) (message : jsstring) :
  no_timecodes <> parse_error i message.
Proof. apply first_unit_differs. vm_compute. discriminate. Qed.

Lemma empty_input_not_no_timecodes : empty_input <> no_timecodes.
Proof. apply first_unit_differs. vm_compute. discriminate. Qed.

Lemma empty_input_not_parse_error (i : nat) (message : jsstring) :
  empty_input <> parse_error i message.
Proof. apply first_unit_differs. vm_compute. discriminate. Qed.

Lemma empty_input_not_invalid_timecode (tc : jsstring) :
  empty_input <> invalid_timecode tc.
Proof. apply first_unit_differs. vm_compute. discriminate. Qed.

Lemma parseAndConvert_outcome (input : jsstring) (fps : number) :
  (exists subs,
      scan input fps = Ok subs /\ subs <> []
      /\ parseAndConvert input fps = Ok (trim (emit_from 0 subs)))
  \/ (scan input fps = Ok []
      /\ parseAndConvert input fps = Throw no_timecodes).
Proof.
  destruct (scan_ok input fps) as (subs & E & _).
  unfold parseAndConvert. rewrite E. simpl.
  destruct subs as [|c subs]; simpl.
  - right. auto.
  - left. exists (c :: subs). repeat split. discriminate.
Qed.

Lemma blank_trim (s : jsstring) :
  forallb isWhiteSpace s = true -> trim s = [].
Proof.
  intros H. unfold trim, trimStart.
  assert (E : dropWhile isWhiteSpace s = []).
  { induction s as [|c s IH]; simpl in *; [reflexivity|].
    apply andb_true_iff in H. destruct H as [Hc Hs]. rewrite Hc. auto. }
  rewrite E. reflexivity.
Qed.

(* ================================================================= *)
(** ** Interchangeable separators *)

Lemma isSeparator_cases (c : char) :
  isSeparator c = true -> c = semicolon \/ c = colon.
Proof.
  unfold isSeparator. intros H. apply orb_true_iff in H.
  destruct H as [H|H]; apply N.eqb_eq in H; auto.
Qed.

Lemma unify_separator_equiv (a b : char) :
  unify_separator a = unify_separator b <-> sep_equiv_char a b.
Proof.
  unfold unify_separator, sep_equiv_char. split.
  - destruct (isSeparator a) eqn:Ha, (isSeparator b) eqn:Hb; intros E.
    + right. split; reflexivity.
    + subst b. discriminate Hb.
    + subst a. discriminate Ha.
    + left. exact E.
  - intros [->|[-> ->]]; reflexivity.
Qed.

Lemma sep_equiv_Forall2 (s t : jsstring) :
  sep_equiv s t <-> Forall2 sep_equiv_char s t.
Proof.
  unfold sep_equiv. split.
  - revert t. induction s as [|a s IH]; intros [|b t] H; simpl in H;
      try discriminate; constructor.
    + apply unify_separator_equiv. now injection H.
    + apply IH. now injection H.
  - induction 1 as [|a b s t Hab _ IH]; simpl; [reflexivity|].
    apply unify_separator_equiv in Hab. now rewrite Hab, IH.
Qed.

Lemma sep_equiv_refl (s : jsstring) : sep_equiv s s.
Proof. reflexivity. Qed.

Lemma sep_equiv_length (s t : jsstring) :
  sep_equiv s t -> length s = length t.
Proof.
  intros H. apply (f_equal (@length _)) in H. now rewrite !length_map in H.
Qed.

Lemma sep_equiv_skipn (n : nat) (s t : jsstring) :
  sep_equiv s t -> sep_equiv (skipn n s) (skipn n t).
Proof. unfold sep_equiv. intros H. now rewrite <- !skipn_map, H. Qed.

Lemma sep_equiv_firstn (n : nat) (s t : jsstring) :
  sep_equiv s t -> sep_equiv (firstn n s) (firstn n t).
Proof. unfold sep_equiv. intros H. now rewrite <- !firstn_map, H. Qed.

Lemma sep_blind_isDigit : sep_blind isDigit.
Proof.
  intros a b [->|[Ha Hb]]; [reflexivity|].
  apply isSeparator_cases in Ha, Hb. destruct Ha, Hb; subst; reflexivity.
Qed.

Lemma sep_blind_isSeparator : sep_blind isSeparator.
Proof. intros a b [->|[-> ->]]; reflexivity. Qed.

Lemma sep_blind_isWhiteSpace : sep_blind isWhiteSpace.
Proof.
  intros a b [->|[Ha Hb]]; [reflexivity|].
  apply isSeparator_cases in Ha, Hb. destruct Ha, Hb; subst; reflexivity.
Qed.

Lemma sep_blind_isDash : sep_blind isDash.
Proof.
  intros a b [->|[Ha Hb]]; [reflexivity|].
  apply isSeparator_cases in Ha, Hb. destruct Ha, Hb; subst; reflexivity.
Qed.

Lemma timecodePattern_sep_blind : regex_sep_blind timecodePattern.
Proof.
  simpl. repeat split;
    auto using sep_blind_isDigit, sep_blind_isSeparator,
               sep_blind_isWhiteSpace, sep_blind_isDash.
Qed.

Lemma takeWhile_sep_blind (cls : char -> bool) (s t : jsstring) :
  sep_blind cls -> sep_equiv s t ->
  length (takeWhile cls s) = length (takeWhile cls t).
Proof.
  intros Hcls H. apply sep_equiv_Forall2 in H.
  induction H as [|a b s t Hab _ IH]; simpl; [reflexivity|].
  rewrite (Hcls a b Hab). destruct (cls b); simpl; auto.
Qed.

Lemma splitBy_sep_equiv (s t : jsstring) :
  sep_equiv s t -> splitBy isSeparator s = splitBy isSeparator t.
Proof.
  intros H. apply sep_equiv_Forall2 in H.
  induction H as [|a b s t Hab _ IH]; simpl; [reflexivity|].
  rewrite (sep_blind_isSeparator a b Hab), IH.
  destruct (isSeparator b) eqn:Hb; [reflexivity|].
  destruct Hab as [->|[_ Hb']]; [reflexivity | congruence].
Qed.

Lemma Forall2_map_same {A B C : Type} (R : B -> C -> Prop)
      (f : A -> B) (g : A -> C) (l : list A) :
  (forall x, R (f x) (g x)) -> Forall2 R (map f l) (map g l).
Proof. intros H. induction l; simpl; constructor; auto. Qed.

Lemma Forall2_map_both {A B C D : Type} (R : A -> B -> Prop) (R' : C -> D -> Prop)
      (f : A -> C) (g : B -> D) (l : list A) (l' : list B) :
  (forall x y, R x y -> R' (f x) (g y)) ->
  Forall2 R l l' -> Forall2 R' (map f l) (map g l').
Proof. intros H. induction 1; simpl; constructor; auto. Qed.

Lemma Forall2_flat_map_both {A B C D : Type} (R : A -> B -> Prop)
      (R' : C -> D -> Prop) (f : A -> list C) (g : B -> list D)
      (l : list A) (l' : list B) :
  (forall x y, R x y -> Forall2 R' (f x) (g y)) ->
  Forall2 R l l' -> Forall2 R' (flat_map f l) (flat_map g l').
Proof.
  intros H. induction 1; simpl; [constructor|]. apply Forall2_app; auto.
Qed.

Lemma matchR_sep_equiv (r : regex) :
  regex_sep_blind r ->
  forall s t, sep_equiv s t ->
              Forall2 outcome_equiv (matchR r s) (matchR r t).
Proof.
  induction r as [cls min max | r1 IH1 r2 IH2 | r IH]; intros Hr s t Hst;
    simpl in *.
  - rewrite (takeWhile_sep_blind cls s t Hr Hst).
    apply Forall2_map_same. intros n. split; simpl; [|constructor].
    now apply sep_equiv_skipn.
  - destruct Hr as [Hr1 Hr2].
    apply (Forall2_flat_map_both outcome_equiv outcome_equiv);
      [|now apply IH1].
    intros [rest1 caps1] [rest1' caps1'] [Hrest Hcaps]. simpl in *.
    apply (Forall2_map_both outcome_equiv outcome_equiv);
      [|now apply IH2].
    intros [rest2 caps2] [rest2' caps2'] [Hrest2 Hcaps2]. simpl in *.
    split; simpl; [assumption | now apply Forall2_app].
  - apply (Forall2_map_both outcome_equiv outcome_equiv); [|now apply IH].
    intros [rest caps] [rest' caps'] [Hrest Hcaps]. simpl in *.
    split; simpl; [assumption|]. constructor; [|assumption].
    rewrite (sep_equiv_length _ _ Hst), (sep_equiv_length _ _ Hrest).
    now apply sep_equiv_firstn.
Qed.

Lemma exec_from_sep_equiv (r : regex) :
  regex_sep_blind r ->
  forall s t i,
    sep_equiv s t ->
    match exec_from r i s, exec_from r i t with
    | Some m, Some m' =>
        index m = index m'
        /\ sep_equiv (matched m) (matched m')
        /\ Forall2 sep_equiv (groups m) (groups m')
    | None, None => True
    | _, _ => False
    end.
Proof.
  intros Hr s. induction s as [|a s IH]; intros t i Hst.
  - destruct t as [|b t]; [|discriminate Hst].
    destruct (exec_from r i []) as [m|]; [|exact I].
    split; [reflexivity|]. split; [reflexivity|].
    induction (groups m); constructor; [reflexivity | assumption].
  - destruct t as [|b t]; [discriminate Hst|].
    pose proof (matchR_sep_equiv r Hr _ _ Hst) as H.
    rewrite (exec_from_unfold r i (a :: s)), (exec_from_unfold r i (b :: t)).
    destruct H as [|[rest caps] [rest' caps'] l l' [Hrest Hcaps] _].
    + apply IH. unfold sep_equiv in *. simpl in Hst. now injection Hst.
    + cbn [index matched groups]. simpl in Hrest, Hcaps.
      split; [reflexivity|]. split; [|assumption].
      rewrite (sep_equiv_length _ _ Hst), (sep_equiv_length _ _ Hrest).
      now apply sep_equiv_firstn.
Qed.

Lemma convertTimecode_sep_equiv (tc tc' : jsstring) (fps : number) :
  timecode_shape tc -> sep_equiv tc tc' ->
  convertTimecode tc fps = convertTimecode tc' fps.
Proof.
  intros Hshape Heq. apply timecode_shape_split in Hshape.
  destruct Hshape as (h & m & s & f & H & _).
  rewrite (convertTimecode_split tc fps h m s f H).
  rewrite (splitBy_sep_equiv _ _ Heq) in H.
  now rewrite (convertTimecode_split tc' fps h m s f H).
Qed.

(* ================================================================= *)
(** ** The text of a number holds no separator *)

Lemma ofUint_digits (u : Decimal.uint) :
  Forall (fun c => isDigit c = true) (ofUint u).
Proof. induction u; simpl; constructor; auto. Qed.

Lemma ofN_no_separator (n : N) : no_separator (ofN n).
Proof. apply digits_no_separator, ofUint_digits. Qed.

Lemma no_separator_app (s t : jsstring) :
  no_separator s -> no_separator t -> no_separator (s ++ t).
Proof. intros Hs Ht. apply Forall_app. auto. Qed.

Lemma no_separator_firstn (n : nat) (s : jsstring) :
  no_separator s -> no_separator (firstn n s).
Proof.
  unfold no_separator. intros H. rewrite <- (firstn_skipn n s) in H.
  now apply Forall_app in H.
Qed.

Lemma no_separator_skipn (n : nat) (s : jsstring) :
  no_separator s -> no_separator (skipn n s).
Proof.
  unfold no_separator. intros H. rewrite <- (firstn_skipn n s) in H.
  now apply Forall_app in H.
Qed.

Lemma no_separator_zeros (n : nat) : no_separator (repeat zero_digit n).
Proof.
  apply Forall_forall. intros c Hc. apply repeat_spec in Hc. now subst.
Qed.

Ltac no_separator_literal :=
  match goal with
  | |- no_separator (lit _) => vm_compute; repeat constructor
  | |- no_separator [] => constructor
  | |- no_separator (if ?b then _ else _) =>
      destruct b; vm_compute; repeat constructor
  end.

Ltac no_separator_parts :=
  repeat first
    [ no_separator_literal
    | apply ofN_no_separator
    | apply no_separator_zeros
    | apply no_separator_firstn
    | apply no_separator_skipn
    | apply no_separator_app ].

Lemma positiveToString_no_separator (x : number) (m : positive) (e : Z) :
  no_separator (positiveToString x m e).
Proof.
  unfold positiveToString.
  destruct (shortest_from _ _ _ _ _ _) as [s0 e0].
  destruct (s0 mod 10 =? 0)%Z;
    repeat match goal with
           | |- no_separator (if ?b then _ else _) => destruct b
           | |- no_separator ((if ?b then _ else _) ++ _) => destruct b
           end;
    no_separator_parts.
Qed.

Lemma toString_no_separator (x : number) : no_separator (toString x).
Proof.
  unfold toString. destruct (Prim2SF x) as [s | s | | s m e].
  - no_separator_literal.
  - destruct s; no_separator_parts.
  - no_separator_literal.
  - destruct s; apply no_separator_app;
      [no_separator_literal | apply positiveToString_no_separator
      | no_separator_literal | apply positiveToString_no_separator].
Qed.

(* ================================================================= *)
(** ** The shape of the emitted time stamps *)

Lemma digits12_padded (w : jsstring) :
  digits12 w ->
  no_separator (padStart 2 zero_digit w)
  /\ padStart 2 zero_digit (padStart 2 zero_digit w) = padStart 2 zero_digit w.
Proof.
  intros [Hd _]. split; [|apply padStart_idempotent].
  apply padStart_Forall; [reflexivity | now apply digits_no_separator].
Qed.

Lemma converted_timecode_form (fps : number) (ts : jsstring) :
  converted_timecode fps ts ->
  exists h m s ms,
    ts = h ++ lit ":" ++ m ++ lit ":" ++ s ++ lit "," ++ ms
    /\ no_separator h /\ no_separator m /\ no_separator s /\ no_separator ms
    /\ padStart 2 zero_digit h = h /\ padStart 2 zero_digit m = m
    /\ padStart 2 zero_digit s = s /\ padStart 3 zero_digit ms = ms.
Proof.
  intros (tc & Hshape & Hconv).
  apply timecode_shape_split in Hshape.
  destruct Hshape as (h & m & s & f & Hsplit & Hh & Hm & Hs & _).
  rewrite (convertTimecode_split tc fps h m s f Hsplit) in Hconv.
  injection Hconv as <-.
  destruct (digits12_padded h Hh) as [Nh Ph].
  destruct (digits12_padded m Hm) as [Nm Pm].
  destruct (digits12_padded s Hs) as [Ns Ps].
  do 4 eexists. split; [reflexivity|].
  do 3 (split; [assumption|]).
  split; [apply padStart_Forall; [reflexivity | apply toString_no_separator]|].
  do 3 (split; [assumption|]).
  apply padStart_idempotent.
Qed.

Lemma timestamp_three_components (h m s ms : jsstring) :
  no_separator h -> no_separator m -> no_separator s -> no_separator ms ->
  splitBy isSeparator (h ++ lit ":" ++ m ++ lit ":" ++ s ++ lit "," ++ ms)
  = [h; m; s ++ lit "," ++ ms].
Proof.
  intros Nh Nm Ns Nms.
  change (lit ":") with [colon]. change (lit ",") with [comma]. simpl.
  rewrite (splitBy_app isSeparator h _ colon Nh eq_refl).
  rewrite (splitBy_app isSeparator m _ colon Nm eq_refl).
  rewrite splitBy_clean; [reflexivity|].
  apply Forall_app. split; [assumption|]. constructor; [reflexivity|assumption].
Qed.

Lemma join_nonempty (lines : list jsstring) :
  nonempty_lines lines -> join [LF] lines <> [].
Proof.
  intros [Hne Hall]. destruct lines as [|l lines]; [contradiction|].
  inversion Hall as [|? ? Hl _]; subst.
  destruct l as [|c l]; [contradiction|].
  destruct lines; simpl; discriminate.
Qed.

(** Every subtitle that the scan saves has a text, and the text is not
    empty. *)
Lemma saved_subtitles_have_text (input : jsstring) (fps : number)
      (subs : list subtitle) (c : subtitle) :
  scan input fps = Ok subs -> In c subs ->
  exists t, text c = Some t /\ t <> [].
Proof.
  intros Hscan Hin. destruct (scan_ok input fps) as (subs' & E & Hall).
  rewrite Hscan in E. injection E as <-.
  rewrite Forall_forall in Hall. destruct (Hall c Hin) as [_ (lines & Hl & Ht)].
  exists (join [LF] lines). split; [assumption | now apply join_nonempty].
Qed.

Lemma step_never_throws (fps : number) (i : nat) (st : state) (raw : jsstring) :
  exists st', step fps i st raw = Ok st'.
Proof.
  unfold step. destruct (is_empty (trim raw)).
  - destruct (currentSubtitle st), (subtitleText st); eauto.
  - destruct (exec timecodePattern (trim raw)) as [m|] eqn:Hm.
    + destruct (exec_timecodePattern _ _ Hm) as [S1 S2].
      destruct (convertTimecode_shape _ fps S1) as (ts1 & ->).
      destruct (convertTimecode_shape _ fps S2) as (ts2 & ->).
      cbn [bind]. destruct (currentSubtitle st), (subtitleText st); eauto.
    + destruct (currentSubtitle st); eauto.
Qed.

(* ================================================================= *)
(** ** A cue without text is not saved *)

Lemma exec_empty_line : exec timecodePattern [] = None.
Proof. vm_compute. reflexivity. Qed.

(** When a pair line comes while the subtitle in progress has no text,
    that subtitle is replaced and the saved list stays as it is. *)
Lemma step_replaces_textless_cue
      (fps : number) (i : nat) (st st' : state) (raw : jsstring)
      (cur : subtitle) (m : match_result) :
  currentSubtitle st = Some cur -> subtitleText st = [] ->
  exec timecodePattern (trim raw) = Some m ->
  step fps i st raw = Ok st' ->
  subtitles st' = subtitles st.
Proof.
  intros Hcur Htext Hm. unfold step.
  destruct (is_empty (trim raw)) eqn:Hline.
  - destruct (trim raw); [|discriminate Hline].
    rewrite exec_empty_line in Hm. discriminate.
  - rewrite Hm, Hcur, Htext.
    destruct (exec_timecodePattern _ _ Hm) as [S1 S2].
    destruct (convertTimecode_shape _ fps S1) as (ts1 & ->).
    destruct (convertTimecode_shape _ fps S2) as (ts2 & ->).
    cbn [bind]. intros H. injection H as <-. reflexivity.
Qed.

Example textless_cue_dropped :
  scan (lit "00;00;03;15 - 00;00;04;15" ++ [LF]
        ++ lit "00;00;06;21 - 00;00;09;10" ++ [LF] ++ lit "Second line")
       24%float
  = Ok [ {| startTime := lit "00:00:06,875"; endTime := lit "00:00:09,417";
            text := Some (lit "Second line") |} ].
Proof. vm_compute. reflexivity. Qed.

Example trailing_text_taken :
  scan (lit "00;00;03;15 - 00;00;06;20 Hello") 24%float
  = Ok [ {| startTime := lit "00:00:03,625"; endTime := lit "00:00:06,833";
            text := Some (lit "Hello") |} ].
Proof. vm_compute. reflexivity. Qed.

(** Called on a blank input, [parseAndConvert] itself reports that no time
    code was found; the message for an empty input is [convertToSRT]'s. *)
Lemma parseAndConvert_blank_input (input : jsstring) (fps : number) :
  forallb isWhiteSpace input = true ->
  parseAndConvert input fps = Throw no_timecodes.
Proof.
  intros H. unfold parseAndConvert, scan. rewrite (blank_trim input H).
  reflexivity.
Qed.

(* ================================================================= *)
(** ** Rounding, and the text of a small integer *)










(* ================================================================= *)
(** ** The properties of the converter *)

(** C1: at 24 frames per second the sample transcript converts to a
    document of exactly two cues, numbered 1 and 2: the first with the
    timing line [00:00:03,625 --> 00:00:06,833] and the text
    [Hello world], the second with [00:00:06,875 --> 00:00:09,417] and
    [Second line]; the separator is [ --> ] and the document ends
    without white space. *)
Theorem sample_conversion :
  scan sample_input 24%float
  = Ok [ {| startTime := lit "00:00:03,625"; endTime := lit "00:00:06,833";
            text := Some (lit "Hello world") |};
         {| startTime := lit "00:00:06,875"; endTime := lit "00:00:09,417";
            text := Some (lit "Second line") |} ]
  /\ parseAndConvert sample_input 24%float
     = Ok (lit "1" ++ [LF]
           ++ lit "00:00:03,625 --> 00:00:06,833" ++ [LF]
           ++ lit "Hello world" ++ [LF]
           ++ [LF]
           ++ lit "2" ++ [LF]
           ++ lit "00:00:06,875 --> 00:00:09,417" ++ [LF]
           ++ lit "Second line").
Proof. split; vm_compute; reflexivity. Qed.



(** C3: on a line where the text of the second time code also occurs
    earlier (here the pair starts and ends at the same time code), the
    text taken for the cue starts at the first occurrence: the dash and
    the second time code end up in the cue's text. *)
Theorem trailing_text_after_repeated_timecode :
  scan repeated_timecode_line 24%float
  = Ok [ {| startTime := lit "00:00:03,625"; endTime := lit "00:00:03,625";
            text := Some (lit "- 00;00;03;15 Hello") |} ].
Proof. vm_compute. reflexivity. Qed.

(** C4, as the code has it: no input makes the conversion fail with the
    time code error.  Every call returns a document or fails with the
    message that no valid time code was found.  The line
    [00;00;03 - 00;00;06;20], whose first time code has three components,
    is not matched by the pattern of a pair, and alone it makes the
    conversion fail with that message at every frame rate.  A line that
    is not empty and that the pattern does not match is taken for text:
    it is added to the text of the subtitle in progress, and it is passed
    over when there is none. *)
Theorem parseAndConvert_never_malformed
        (input raw : jsstring) (fps : number) (i : nat) (st : state) :
  ((exists document, parseAndConvert input fps = Ok document)
   \/ parseAndConvert input fps = Throw no_timecodes)
  /\ (forall j message,
        parseAndConvert input fps <> Throw (parse_error j message))
  /\ exec timecodePattern three_component_line = None
  /\ parseAndConvert three_component_line fps = Throw no_timecodes
  /\ (exec timecodePattern (trim raw) = None ->
      is_empty (trim raw) = false ->
      step fps i st raw
      = Ok match currentSubtitle st with
           | Some cur =>
               {| subtitles := subtitles st;
                  currentSubtitle := Some cur;
                  subtitleText := subtitleText st ++ [trim raw] |}
           | None => st
           end).
Proof.
  split; [|split; [|split; [vm_compute; reflexivity|split]]].
  - destruct (parseAndConvert_outcome input fps) as [(subs & _ & _ & E)|[_ E]];
      eauto.
  - intros j message.
    destruct (parseAndConvert_outcome input fps) as [(subs & _ & _ & E)|[_ E]];
      rewrite E; [discriminate|].
    intros H. apply (no_timecodes_not_parse_error j message). congruence.
  - unfold parseAndConvert, scan.
    assert (E : splitBy (N.eqb LF) (trim three_component_line)
                = [three_component_line]) by (vm_compute; reflexivity).
    rewrite E, loop_no_match; [reflexivity|].
    intros r [<-|[]]. vm_compute. reflexivity.
  - intros Hm Hne. unfold step. rewrite Hne, Hm.
    destruct (currentSubtitle st) as [cur|] eqn:Hcur; reflexivity.
Qed.

Lemma parseAndConvert_never_malformed_witness :
  step 24%float 1 state_in_cue three_component_line
  = Ok {| subtitles := [];
          currentSubtitle :=
            Some {| startTime := lit "00:00:03,625";
                    endTime := lit "00:00:06,833"; text := None |};
          subtitleText := [lit "Hello world"; three_component_line] |}.
Proof.
  destruct (parseAndConvert_never_malformed
              three_component_line three_component_line 24%float 1 state_in_cue)
    as (_ & _ & _ & _ & T).
  refine (eq_trans (T _ _) _); vm_compute; reflexivity.
Defined.

(** C4, as stated, fails on the line with three components: the
    conversion does not fail with an error that cites a line. *)
Lemma three_component_line_not_reported :
  ~ (exists i message,
        parseAndConvert three_component_line 24%float
        = Throw (parse_error i message)).
Proof.
  intros (i & message & H).
  assert (E : parseAndConvert three_component_line 24%float = Throw no_timecodes)
    by (vm_compute; reflexivity).
  rewrite E in H. apply (no_timecodes_not_parse_error i message). congruence.
Qed.

(** C5: for an input without any character other than white space,
    [convertToSRT] reports the empty input at once, leaving the output
    as it was; its message is neither the message for a transcript
    without time codes nor a time code error, and [parseAndConvert]
    never fails with it. *)
Theorem convertToSRT_blank_input (input : jsstring) (fps : number) (p : page) :
  forallb isWhiteSpace input = true ->
  convertToSRT input fps p = showStatus empty_input (lit "error") p
  /\ outputText_value (convertToSRT input fps p) = outputText_value p
  /\ empty_input <> no_timecodes
  /\ (forall i message, empty_input <> parse_error i message)
  /\ (forall input' fps', parseAndConvert input' fps' <> Throw empty_input).
Proof.
  intros H. unfold convertToSRT. rewrite (blank_trim input H). simpl.
  repeat split.
  - apply empty_input_not_no_timecodes.
  - apply empty_input_not_parse_error.
  - intros input' fps'.
    destruct (parseAndConvert_outcome input' fps') as [(subs & _ & _ & E)|[_ E]];
      rewrite E; [discriminate|].
    intros E'. apply empty_input_not_no_timecodes. congruence.
Qed.

Lemma convertToSRT_blank_input_witness :
  forallb isWhiteSpace blank_input = true
  /\ convertToSRT blank_input 24%float some_page
     = showStatus empty_input (lit "error") some_page.
Proof.
  split; [reflexivity|].
  exact (proj1 (convertToSRT_blank_input blank_input 24%float some_page eq_refl)).
Defined.

(** C6: [parseAndConvert] fails with the message that no valid time
    code was found exactly when the list of saved subtitles is empty
    after the scan; this is the case of every transcript none of whose
    lines matches the pattern of a pair. *)
Theorem no_timecodes_iff_no_subtitles (input : jsstring) (fps : number) :
  (parseAndConvert input fps = Throw no_timecodes <-> scan input fps = Ok [])
  /\ ((forall raw, In raw (splitBy (N.eqb LF) (trim input)) ->
                   exec timecodePattern (trim raw) = None) ->
      parseAndConvert input fps = Throw no_timecodes).
Proof.
  assert (Hiff : parseAndConvert input fps = Throw no_timecodes
                 <-> scan input fps = Ok []).
  { destruct (parseAndConvert_outcome input fps)
      as [(subs & Hs & Hne & E)|[Hs E]]; rewrite E, Hs; split; intros H;
      try discriminate; try reflexivity.
    injection H as ->. contradiction. }
  split; [exact Hiff|].
  intros H. apply Hiff. unfold scan.
  rewrite (loop_no_match fps _ H 0). reflexivity.
Qed.

Lemma no_timecodes_iff_no_subtitles_witness :
  parseAndConvert (lit "Hello world") 24%float = Throw no_timecodes.
Proof.
  apply (proj2 (no_timecodes_iff_no_subtitles (lit "Hello world") 24%float)).
  intros raw Hraw. simpl in Hraw. destruct Hraw as [<-|[]].
  vm_compute. reflexivity.
Defined.

(** C7: when the first of two pair lines in a row starts and ends at the
    same time code, the text of its second time code is found at the
    start of the line and what follows it is taken for text; the cue is
    then saved with the text [- 00;00;03;15], and the document has two
    cues. *)
Theorem textless_pair_line_kept :
  scan consecutive_pairs 24%float
  = Ok [ {| startTime := lit "00:00:03,625"; endTime := lit "00:00:03,625";
            text := Some (lit "- 00;00;03;15") |};
         {| startTime := lit "00:00:06,875"; endTime := lit "00:00:09,417";
            text := Some (lit "Second line") |} ].
Proof. vm_compute. reflexivity. Qed.

(** C8, as the code has it: every time stamp of an emitted document
    reads [h:m:s,ms] with parts that hold no separator and that the
    padding of the converter leaves as they are; split on [;] or [:] it
    has three components, so that the converter rejects it as a time
    code. *)
Theorem emitted_timestamps_stable
        (input : jsstring) (fps : number) (subs : list subtitle)
        (c : subtitle) (ts : jsstring) :
  scan input fps = Ok subs -> In c subs ->
  ts = startTime c \/ ts = endTime c ->
  exists h m s ms,
    ts = h ++ lit ":" ++ m ++ lit ":" ++ s ++ lit "," ++ ms
    /\ splitBy isSeparator ts = [h; m; s ++ lit "," ++ ms]
    /\ no_separator s
    /\ padStart 2 zero_digit h = h /\ padStart 2 zero_digit m = m
    /\ padStart 2 zero_digit s = s /\ padStart 3 zero_digit ms = ms
    /\ convertTimecode ts fps = Throw (invalid_timecode ts).
Proof.
  intros Hscan Hin Hts.
  destruct (scan_ok input fps) as (subs' & E & Hall).
  rewrite Hscan in E. injection E as <-.
  rewrite Forall_forall in Hall. destruct (Hall c Hin) as [[Hstart Hend] _].
  assert (Hconv : converted_timecode fps ts) by (destruct Hts; now subst).
  destruct (converted_timecode_form fps ts Hconv)
    as (h & m & s & ms & -> & Nh & Nm & Ns & Nms & Ph & Pm & Ps & Pms).
  exists h, m, s, ms.
  pose proof (timestamp_three_components h m s ms Nh Nm Ns Nms) as Hsplit.
  repeat (split; [assumption || reflexivity|]).
  unfold convertTimecode. rewrite Hsplit. reflexivity.
Qed.

Lemma emitted_timestamps_stable_witness :
  exists h m s ms,
    lit "00:00:03,625" = h ++ lit ":" ++ m ++ lit ":" ++ s ++ lit "," ++ ms
    /\ splitBy isSeparator (lit "00:00:03,625") = [h; m; s ++ lit "," ++ ms]
    /\ no_separator s
    /\ padStart 2 zero_digit h = h /\ padStart 2 zero_digit m = m
    /\ padStart 2 zero_digit s = s /\ padStart 3 zero_digit ms = ms
    /\ convertTimecode (lit "00:00:03,625") 24%float
       = Throw (invalid_timecode (lit "00:00:03,625")).
Proof.
  apply (emitted_timestamps_stable sample_input 24%float
           [ {| startTime := lit "00:00:03,625"; endTime := lit "00:00:06,833";
                text := Some (lit "Hello world") |};
             {| startTime := lit "00:00:06,875"; endTime := lit "00:00:09,417";
                text := Some (lit "Second line") |} ]
           {| startTime := lit "00:00:03,625"; endTime := lit "00:00:06,833";
              text := Some (lit "Hello world") |}).
  - vm_compute. reflexivity.
  - simpl. left. reflexivity.
  - left. reflexivity.
Defined.

(** C8, as stated, fails on the sample transcript: the converter does
    not give back the first time stamp of the document when it is fed
    with it. *)
Lemma sample_timestamp_not_reproduced :
  exists subs c,
    scan sample_input 24%float = Ok subs /\ In c subs
    /\ convertTimecode (startTime c) 24%float <> Ok (startTime c).
Proof.
  eexists. eexists. split; [vm_compute; reflexivity|].
  split; [left; reflexivity|].
  vm_compute. discriminate.
Qed.

(** What does hold of interchanged separators: two texts that differ
    only in which of [;] and [:] stands at each separator have the same
    components, and the pattern of a pair matches both or neither, at the
    same place, with time codes that have the same components and convert
    to the same time stamps. *)
Theorem separators_interchangeable (s t : jsstring) (fps : number) :
  sep_equiv s t ->
  splitBy isSeparator s = splitBy isSeparator t
  /\ match exec timecodePattern s, exec timecodePattern t with
     | Some m, Some m' =>
         index m = index m'
         /\ length (matched m) = length (matched m')
         /\ forall i, i = 1 \/ i = 2 ->
              splitBy isSeparator (group m i) = splitBy isSeparator (group m' i)
              /\ convertTimecode (group m i) fps
                 = convertTimecode (group m' i) fps
     | None, None => True
     | _, _ => False
     end.
Proof.
  intros H. split; [now apply splitBy_sep_equiv|].
  pose proof (exec_from_sep_equiv timecodePattern timecodePattern_sep_blind
                s t 0 H) as Hexec.
  fold (exec timecodePattern s) in Hexec. fold (exec timecodePattern t) in Hexec.
  destruct (exec timecodePattern s) as [m|] eqn:Es,
           (exec timecodePattern t) as [m'|] eqn:Et; try exact Hexec.
  destruct Hexec as (Hi & Hm & Hg).
  split; [exact Hi|]. split; [now apply sep_equiv_length|].
  destruct (exec_timecodePattern _ _ Es) as [S1 S2].
  assert (G : forall i, sep_equiv (group m i) (group m' i)).
  { intros i. unfold group. revert Hg. generalize (groups m) (groups m').
    induction (i - 1) as [|n IH]; intros l l' Hl; destruct Hl; simpl;
      auto; reflexivity. }
  intros i [->| ->]; (split; [apply splitBy_sep_equiv, G|]);
    apply convertTimecode_sep_equiv; auto.
Qed.

Lemma separators_interchangeable_witness :
  sep_equiv mixed_separators uniform_separators
  /\ splitBy isSeparator mixed_separators
     = splitBy isSeparator uniform_separators
  /\ match exec timecodePattern mixed_separators,
           exec timecodePattern uniform_separators with
     | Some m, Some m' =>
         index m = index m'
         /\ length (matched m) = length (matched m')
         /\ forall i, i = 1 \/ i = 2 ->
              splitBy isSeparator (group m i) = splitBy isSeparator (group m' i)
              /\ convertTimecode (group m i) 24%float
                 = convertTimecode (group m' i) 24%float
     | None, None => True
     | _, _ => False
     end.
Proof.
  split; [reflexivity|].
  apply (separators_interchangeable
           mixed_separators uniform_separators 24%float).
  reflexivity.
Defined.

(** C9: writing a colon for a semicolon in the first time code of the
    pair [00;00;03;15 - 00;00;03;15] changes the result of the parse.
    With the same separators throughout, the text of the second time code
    is found at the start of the line and the subtitle gets the text
    [- 00;00;03;15]; with the colon it is found where it was matched,
    nothing follows it, the subtitle has no text and the conversion fails
    for want of a subtitle. *)
Theorem mixed_separators_change_result :
  sep_equiv repeated_pair_mixed repeated_pair_uniform
  /\ parseAndConvert repeated_pair_uniform 24%float
     = Ok (lit "1" ++ [LF]
           ++ lit "00:00:03,625 --> 00:00:03,625" ++ [LF]
           ++ lit "- 00;00;03;15")
  /\ parseAndConvert repeated_pair_mixed 24%float = Throw no_timecodes.
Proof. repeat split; vm_compute; reflexivity. Qed.

(** C10: a text captured as a time code by the pattern of a pair splits
    on [;] or [:] into exactly four components, each of one or two
    digits, and its conversion succeeds; an iteration of the scanning
    loop therefore never fails. *)
Theorem matched_timecode_has_four_components
        (line : jsstring) (m : match_result) (i : nat) :
  exec timecodePattern line = Some m -> i = 1 \/ i = 2 ->
  (exists h mi s f,
      splitBy isSeparator (group m i) = [h; mi; s; f]
      /\ digits12 h /\ digits12 mi /\ digits12 s /\ digits12 f)
  /\ (forall fps, exists ts, convertTimecode (group m i) fps = Ok ts)
  /\ (forall fps j st raw, exists st', step fps j st raw = Ok st').
Proof.
  intros H Hi. destruct (exec_timecodePattern _ _ H) as [S1 S2].
  assert (S : timecode_shape (group m i)) by (destruct Hi; now subst).
  split; [now apply timecode_shape_split|].
  split; [intros fps; now apply convertTimecode_shape|].
  intros fps j st raw. apply step_never_throws.
Qed.

Lemma matched_timecode_has_four_components_witness :
  exists h mi s f,
    splitBy isSeparator (lit "00;00;06:20") = [h; mi; s; f]
    /\ digits12 h /\ digits12 mi /\ digits12 s /\ digits12 f.
Proof.
  exact (proj1 (matched_timecode_has_four_components
                  mixed_separators
                  {| index := 0; matched := mixed_separators;
                     groups := [lit "00:00:03;15"; lit "00;00;06:20"] |}
                  2 eq_refl (or_intror eq_refl))).
Defined.

(* ================================================================= *)
(** ** Further properties: trimming *)

Lemma dropWhile_Forall (P : char -> Prop) (p : char -> bool) (s : jsstring) :
  Forall P s -> Forall P (dropWhile p s).
Proof.
  induction 1 as [|c s Hc Hs IH]; simpl; [constructor|].
  destruct (p c); [exact IH | now constructor].
Qed.

Lemma dropWhile_all (p : char -> bool) (w s : jsstring) :
  Forall (fun c => p c = true) w -> dropWhile p (w ++ s) = dropWhile p s.
Proof. induction 1 as [|c w Hc _ IH]; simpl; [reflexivity | now rewrite Hc]. Qed.

Lemma dropWhile_split (p : char -> bool) (s : jsstring) :
  exists w, s = w ++ dropWhile p s /\ Forall (fun c => p c = true) w.
Proof.
  induction s as [|c s (w & E & Hw)]; simpl.
  - exists []. split; [reflexivity | constructor].
  - destruct (p c) eqn:Hc.
    + exists (c :: w). split; [simpl; now rewrite <- E | now constructor].
    + exists []. split; [reflexivity | constructor].
Qed.

Lemma dropWhile_head (p : char -> bool) (s t : jsstring) (c : char) :
  dropWhile p s = c :: t -> p c = false.
Proof.
  induction s as [|d s IH]; simpl; [discriminate|].
  destruct (p d) eqn:Hd; [exact IH|]. intros E. injection E as -> _. exact Hd.
Qed.

Lemma trimEnd_split (s : jsstring) :
  exists w, s = trimEnd s ++ w /\ Forall (fun c => isWhiteSpace c = true) w.
Proof.
  unfold trimEnd.
  destruct (dropWhile_split isWhiteSpace (rev s)) as (w & E & Hw).
  exists (rev w). split; [|now apply Forall_rev].
  rewrite <- rev_app_distr, <- E. symmetry. apply rev_involutive.
Qed.

Lemma trimEnd_last (s t : jsstring) (c : char) :
  trimEnd s = t ++ [c] -> isWhiteSpace c = false.
Proof.
  unfold trimEnd. intros E. apply (f_equal (@rev char)) in E.
  rewrite rev_involutive, rev_app_distr in E. simpl in E.
  now apply dropWhile_head in E.
Qed.

Lemma trimEnd_keeps (s : jsstring) (c : char) :
  isWhiteSpace c = false -> trimEnd (s ++ [c]) = s ++ [c].
Proof.
  intros Hc. unfold trimEnd. rewrite rev_app_distr. simpl. rewrite Hc.
  simpl. now rewrite rev_involutive.
Qed.

Lemma trimEnd_drops (s w : jsstring) :
  Forall (fun c => isWhiteSpace c = true) w -> trimEnd (s ++ w) = trimEnd s.
Proof.
  intros Hw. unfold trimEnd. rewrite rev_app_distr, dropWhile_all; [reflexivity|].
  now apply Forall_rev.
Qed.

(** What [trim] returns is empty, or begins and ends with a code unit
    that is no white space. *)
Lemma trim_ends (s : jsstring) :
  trim s = []
  \/ exists a t c,
       isWhiteSpace a = false /\ isWhiteSpace c = false
       /\ (trim s = [a] /\ a = c \/ trim s = a :: t ++ [c]).
Proof.
  unfold trim, trimStart.
  destruct (dropWhile isWhiteSpace s) as [|a u] eqn:Ed; [now left|].
  right. pose proof (dropWhile_head _ _ _ _ Ed) as Ha.
  destruct (trimEnd_split (a :: u)) as (w & E & Hw).
  destruct (trimEnd (a :: u)) as [|b v] eqn:Et.
  - simpl in E. subst w. inversion Hw; congruence.
  - simpl in E. injection E as <- E.
    destruct (exists_last (l := a :: v)) as (t & c & El); [discriminate|].
    assert (Hc : isWhiteSpace c = false).
    { apply (trimEnd_last (a :: u) t c). now rewrite Et. }
    exists a. destruct t as [|a' t]; simpl in El.
    + injection El as <- ->. exists [], a. auto.
    + injection El as <- ->. exists t, c. auto.
Qed.

Lemma trim_fixed (a c : char) (t : jsstring) :
  isWhiteSpace a = false -> isWhiteSpace c = false ->
  trim (a :: t ++ [c]) = a :: t ++ [c].
Proof.
  intros Ha Hc. unfold trim, trimStart. simpl. rewrite Ha.
  apply (trimEnd_keeps (a :: t) c Hc).
Qed.

Lemma trim_fixed_one (a : char) : isWhiteSpace a = false -> trim [a] = [a].
Proof.
  intros Ha. unfold trim, trimStart. simpl. rewrite Ha.
  apply (trimEnd_keeps [] a Ha).
Qed.

Lemma trim_idempotent (s : jsstring) : trim (trim s) = trim s.
Proof.
  destruct (trim_ends s) as [E | (a & t & c & Ha & Hc & [[E _] | E])];
    rewrite E.
  - reflexivity.
  - now apply trim_fixed_one.
  - now apply trim_fixed.
Qed.

Lemma trim_Forall (P : char -> Prop) (s : jsstring) :
  Forall P s -> Forall P (trim s).
Proof.
  intros H. unfold trim, trimEnd, trimStart.
  apply Forall_rev, dropWhile_Forall, Forall_rev, dropWhile_Forall, H.
Qed.

(* ================================================================= *)
(** ** Further properties: which time codes convert *)

Lemma splitBy_length (p : char -> bool) (s : jsstring) :
  length (splitBy p s) = S (length (filter p s)).
Proof.
  induction s as [|c s IH]; simpl; [reflexivity|].
  destruct (p c); simpl; [now rewrite IH|].
  destruct (splitBy p s); simpl in *; [discriminate | exact IH].
Qed.

(** X1: [convertTimecode] returns a time stamp exactly for the texts that
    hold three separators ([;] or [:]), whatever stands between them;
    every other text makes it throw the format error, which quotes the
    text. *)
Theorem convertTimecode_three_separators (tc : jsstring) (fps : number) :
  (length (filter isSeparator tc) = 3
   <-> exists ts, convertTimecode tc fps = Ok ts)
  /\ (length (filter isSeparator tc) <> 3
      <-> convertTimecode tc fps = Throw (invalid_timecode tc)).
Proof.
  pose proof (splitBy_length isSeparator tc) as Hlen.
  unfold convertTimecode.
  destruct (splitBy isSeparator tc) as [|p0 [|p1 [|p2 [|p3 [|p4 l]]]]];
    simpl in Hlen; [discriminate Hlen|..];
    injection Hlen as Hlen; rewrite <- Hlen;
    (split; split;
     [ intros H; try discriminate H; eauto
     | intros [ts H]; try discriminate H; reflexivity
     | intros H; try reflexivity; now elim H
     | intros H; try discriminate H; discriminate ]).
Qed.

(* ================================================================= *)
(** ** Further properties: the matcher misses no match *)

Lemma takeWhile_app_all (cls : char -> bool) (w rest : jsstring) :
  Forall (fun c => cls c = true) w ->
  length w <= length (takeWhile cls (w ++ rest)).
Proof.
  induction 1 as [|c w Hc _ IH]; simpl; [lia|]. rewrite Hc. simpl. lia.
Qed.

Lemma skipn_consumed (w rest : jsstring) : skipn (length w) (w ++ rest) = rest.
Proof. induction w; simpl; auto. Qed.

Lemma matchR_complete (r : regex) (w : jsstring) (caps : list jsstring) :
  Matches r w caps -> forall rest, In (rest, caps) (matchR r (w ++ rest)).
Proof.
  induction 1 as [cls min max w Hall Hmin Hmax
                 | r1 r2 w1 w2 caps1 caps2 _ IH1 _ IH2
                 | r w caps _ IH]; intros rest; simpl.
  - apply in_map_iff. exists (length w). split.
    + now rewrite skipn_consumed.
    + apply downto_In. split; [exact Hmin|].
      pose proof (takeWhile_app_all cls w rest Hall).
      destruct max as [m|]; [specialize (Hmax m eq_refl)|]; lia.
  - apply in_flat_map. exists (w2 ++ rest, caps1). split.
    + rewrite <- app_assoc. apply IH1.
    + apply in_map_iff. exists (rest, caps2). split; [reflexivity | apply IH2].
  - apply in_map_iff. exists (rest, caps). split; [|apply IH].
    now rewrite firstn_consumed.
Qed.

Lemma exec_from_complete (r : regex) (w rest : jsstring) (caps : list jsstring) :
  Matches r w caps ->
  forall pre i,
    exists m, exec_from r i (pre ++ w ++ rest) = Some m
              /\ index m <= i + length pre.
Proof.
  intros M. induction pre as [|c pre IH]; intros i; rewrite exec_from_unfold.
  - pose proof (matchR_complete r w caps M rest) as Hin. simpl app.
    destruct (matchR r (w ++ rest)) as [|[rest' caps'] l]; [destruct Hin|].
    eexists. split; [reflexivity|]. simpl. lia.
  - destruct (matchR r ((c :: pre) ++ w ++ rest)) as [|[rest' caps'] l].
    + simpl app. destruct (IH (S i)) as (m & E & Hi).
      exists m. split; [exact E | simpl; lia].
    + eexists. split; [reflexivity|]. simpl. lia.
Qed.

Lemma timecode_shape_Matches (tc : jsstring) :
  timecode_shape tc -> Matches timecodeRegex tc [].
Proof.
  intros (h & m & s & f & s1 & s2 & s3 & -> & Hh & Hm & Hs & Hf & H1 & H2 & H3).
  assert (D : forall w, digits12 w -> Matches (Atom isDigit 1 (Some 2)) w []).
  { intros w [Hall [Hmin Hmax]]. constructor; auto.
    intros n E. injection E as <-. exact Hmax. }
  assert (S : forall c, isSeparator c = true ->
                        Matches (Atom isSeparator 1 (Some 1)) [c] []).
  { intros c Hc. constructor; simpl; auto.
    intros n E. injection E as <-. lia. }
  unfold timecodeRegex.
  change (h ++ s1 :: m ++ s2 :: s ++ s3 :: f)
    with (h ++ [s1] ++ m ++ [s2] ++ s ++ [s3] ++ f).
  change (@nil jsstring) with (@nil jsstring ++ [] ++ [] ++ [] ++ [] ++ [] ++ []).
  repeat (apply Matches_Seq; auto).
Qed.

(** X2: a line that holds, anywhere, two texts of the time code shape
    with a dash between them (a hyphen, an en dash or an em dash, with any
    white space around it) is found by the pattern, at the place of that
    pair or before it, and what the match captures are two time codes
    that convert. *)
Theorem pair_is_recognised
        (pre tc1 ws1 ws2 tc2 post : jsstring) (dash : char) (fps : number) :
  timecode_shape tc1 -> timecode_shape tc2 ->
  Forall (fun c => isWhiteSpace c = true) ws1 ->
  Forall (fun c => isWhiteSpace c = true) ws2 ->
  isDash dash = true ->
  exists m,
    exec timecodePattern (pre ++ tc1 ++ ws1 ++ dash :: ws2 ++ tc2 ++ post)
    = Some m
    /\ index m <= length pre
    /\ (exists s, convertTimecode (group m 1) fps = Ok s)
    /\ (exists e, convertTimecode (group m 2) fps = Ok e).
Proof.
  intros S1 S2 W1 W2 Hd.
  assert (M : Matches timecodePattern
                (tc1 ++ ws1 ++ [dash] ++ ws2 ++ tc2) [tc1; tc2]).
  { unfold timecodePattern.
    change [tc1; tc2] with ((tc1 :: []) ++ [] ++ [] ++ [] ++ [tc2]).
    apply Matches_Seq; [apply Matches_Group, timecode_shape_Matches, S1|].
    apply Matches_Seq; [constructor; [exact W1 | lia | discriminate]|].
    apply Matches_Seq;
      [constructor; simpl; [auto | lia | intros n E; injection E as <-; lia]|].
    apply Matches_Seq; [constructor; [exact W2 | lia | discriminate]|].
    apply Matches_Group, timecode_shape_Matches, S2. }
  destruct (exec_from_complete timecodePattern _ post _ M pre 0)
    as (m & E & Hi).
  exists m. unfold exec.
  replace (pre ++ tc1 ++ ws1 ++ dash :: ws2 ++ tc2 ++ post)
    with (pre ++ (tc1 ++ ws1 ++ [dash] ++ ws2 ++ tc2) ++ post)
    by (repeat (rewrite <- app_assoc; simpl); reflexivity).
  split; [exact E|]. split; [exact Hi|].
  destruct (exec_timecodePattern _ _ E) as [G1 G2].
  split; now apply convertTimecode_shape.
Qed.

Lemma pair_is_recognised_witness :
  exists m,
    exec timecodePattern
         (lit "Scene 2: " ++ lit "1:02:03:04" ++ lit " " ++ en_dash :: lit "  "
          ++ lit "01;02;05;10" ++ lit " Hello")
    = Some m
    /\ index m <= length (lit "Scene 2: ")
    /\ (exists s, convertTimecode (group m 1) 25%float = Ok s)
    /\ (exists e, convertTimecode (group m 2) 25%float = Ok e).
Proof.
  apply (pair_is_recognised (lit "Scene 2: ") (lit "1:02:03:04") (lit " ")
           (lit "  ") (lit "01;02;05;10") (lit " Hello") en_dash 25%float).
  - exists (lit "1"), (lit "02"), (lit "03"), (lit "04"), colon, colon, colon.
    vm_compute. repeat split; repeat constructor.
  - exists (lit "01"), (lit "02"), (lit "05"), (lit "10"),
      semicolon, semicolon, semicolon.
    vm_compute. repeat split; repeat constructor.
  - vm_compute. repeat constructor.
  - vm_compute. repeat constructor.
  - reflexivity.
Defined.

(* ================================================================= *)
(** ** Further properties: the lines of the saved texts *)

Lemma splitBy_pieces (p : char -> bool) (s : jsstring) :
  Forall (Forall (fun c => p c = false)) (splitBy p s).
Proof.
  induction s as [|c s IH]; simpl; [repeat constructor|].
  destruct (p c) eqn:Hc; [constructor; [constructor | exact IH]|].
  destruct (splitBy p s) as [|w ws]; [repeat constructor; exact Hc|].
  inversion IH; subst. constructor; [now constructor | assumption].
Qed.

Lemma lines_lf_free (s : jsstring) : Forall lf_free (splitBy (N.eqb LF) s).
Proof.
  eapply Forall_impl; [|apply splitBy_pieces].
  intros l Hl. unfold lf_free. eapply Forall_impl; [|exact Hl].
  intros c Hc. now rewrite N.eqb_sym.
Qed.

Lemma lf_free_trim (s : jsstring) : lf_free s -> lf_free (trim s).
Proof. apply trim_Forall. Qed.

Lemma lf_free_skipn (n : nat) (s : jsstring) : lf_free s -> lf_free (skipn n s).
Proof.
  unfold lf_free. intros H. rewrite <- (firstn_skipn n s) in H.
  now apply Forall_app in H.
Qed.

Lemma clean_trim (s : jsstring) :
  lf_free s -> is_empty (trim s) = false -> clean_line (trim s).
Proof.
  intros Hs He. split; [now apply is_empty_false|].
  split; [now apply lf_free_trim | apply trim_idempotent].
Qed.

Lemma clean_text_save (st : state) (cur : subtitle) :
  text_invariant st -> subtitleText st <> [] ->
  Forall clean_text (subtitles st ++ [with_text cur (subtitleText st)]).
Proof.
  intros [Hs Ht] Hne. apply Forall_app. split; [exact Hs|].
  constructor; [|constructor]. exists (subtitleText st). auto.
Qed.

Lemma step_text_invariant
      (fps : number) (i : nat) (st st' : state) (raw : jsstring) :
  lf_free raw -> text_invariant st ->
  step fps i st raw = Ok st' -> text_invariant st'.
Proof.
  intros Hraw Inv. unfold step.
  destruct (is_empty (trim raw)) eqn:Hline.
  - destruct (currentSubtitle st) as [cur|] eqn:Hcur;
      [destruct (subtitleText st) as [|t ts] eqn:Htext|];
      intros E; injection E as <-; try exact Inv.
    constructor; simpl; [|constructor].
    rewrite <- Htext. apply clean_text_save; auto. rewrite Htext. discriminate.
  - pose proof (clean_trim raw Hraw Hline) as Hclean.
    destruct (exec timecodePattern (trim raw)) as [m|] eqn:Hm.
    + destruct (exec_timecodePattern _ _ Hm) as [S1 S2].
      destruct (convertTimecode_shape _ fps S1) as (ts1 & ->).
      destruct (convertTimecode_shape _ fps S2) as (ts2 & ->).
      cbn [bind].
      assert (Hafter : forall pending,
                 Forall clean_line pending ->
                 Forall clean_line
                   (if is_empty (afterTimecode (trim raw) m) then pending
                    else pending ++ [afterTimecode (trim raw) m])).
      { intros pending Hp.
        destruct (is_empty (afterTimecode (trim raw) m)) eqn:Ha; [exact Hp|].
        apply Forall_app. split; [exact Hp|]. constructor; [|constructor].
        apply clean_trim; [|exact Ha].
        apply lf_free_skipn, lf_free_trim, Hraw. }
      destruct (currentSubtitle st) as [cur|] eqn:Hcur;
        [destruct (subtitleText st) as [|t ts] eqn:Htext|];
        intros E; injection E as <-; constructor;
        cbn [subtitles currentSubtitle subtitleText];
        try (apply Hafter; try constructor; rewrite <- ?Htext; apply Inv);
        try apply Inv.
      rewrite <- Htext. apply clean_text_save; auto. rewrite Htext. discriminate.
    + destruct (currentSubtitle st) as [cur|] eqn:Hcur;
        intros E; injection E as <-; try exact Inv.
      constructor; simpl; [apply Inv|].
      apply Forall_app. split; [apply Inv|]. now constructor.
Qed.

Lemma loop_text_invariant (fps : number) (lines : list jsstring) :
  Forall lf_free lines ->
  forall i st st',
    text_invariant st -> loop fps i lines st = Ok st' -> text_invariant st'.
Proof.
  induction 1 as [|raw rest Hraw _ IH]; intros i st st' Inv; simpl.
  - intros E. injection E as <-. exact Inv.
  - destruct (step fps i st raw) as [st1|message] eqn:E1; simpl;
      [|discriminate].
    apply IH. eapply step_text_invariant; eauto.
Qed.

Lemma scan_clean_text (input : jsstring) (fps : number) (subs : list subtitle) :
  scan input fps = Ok subs -> Forall clean_text subs.
Proof.
  unfold scan.
  destruct (loop fps 0 (splitBy (N.eqb LF) (trim input)) initial)
    as [st|message] eqn:E; simpl; [|discriminate].
  intros H. injection H as <-.
  assert (Inv : text_invariant st).
  { eapply loop_text_invariant; [apply lines_lf_free | | exact E].
    constructor; constructor. }
  unfold finish.
  destruct (currentSubtitle st) as [cur|] eqn:Hcur;
    [destruct (subtitleText st) as [|t ts] eqn:Htext|]; try apply Inv.
  rewrite <- Htext. apply clean_text_save; auto. rewrite Htext. discriminate.
Qed.

(* ================================================================= *)
(** ** Further properties: the code units of a time stamp *)

Lemma digit_number_char (c : char) : isDigit c = true -> number_char c = true.
Proof. intros H. unfold number_char. now rewrite H. Qed.

Lemma ofN_digits (n : N) : Forall (fun c => isDigit c = true) (ofN n).
Proof. apply ofUint_digits. Qed.

Lemma ofN_number_chars (n : N) : number_chars (ofN n).
Proof.
  eapply Forall_impl; [|apply ofN_digits]. intros c. apply digit_number_char.
Qed.

Lemma number_chars_firstn (n : nat) (s : jsstring) :
  number_chars s -> number_chars (firstn n s).
Proof.
  unfold number_chars. intros H. rewrite <- (firstn_skipn n s) in H.
  now apply Forall_app in H.
Qed.

Lemma number_chars_skipn (n : nat) (s : jsstring) :
  number_chars s -> number_chars (skipn n s).
Proof.
  unfold number_chars. intros H. rewrite <- (firstn_skipn n s) in H.
  now apply Forall_app in H.
Qed.

Lemma number_chars_app (s t : jsstring) :
  number_chars s -> number_chars t -> number_chars (s ++ t).
Proof. intros Hs Ht. apply Forall_app. auto. Qed.

Lemma zeros_number_chars (n : nat) : number_chars (repeat zero_digit n).
Proof.
  apply Forall_forall. intros c Hc. apply repeat_spec in Hc. now subst.
Qed.

Ltac number_chars_parts :=
  repeat first
    [ match goal with
      | |- number_chars (lit _) => vm_compute; repeat constructor
      | |- number_chars [] => constructor
      | |- number_chars (if ?b then _ else _) =>
          destruct b; vm_compute; repeat constructor
      end
    | apply ofN_number_chars
    | apply zeros_number_chars
    | apply number_chars_firstn
    | apply number_chars_skipn
    | apply number_chars_app ].

Lemma positiveToString_number_chars (x : number) (m : positive) (e : Z) :
  number_chars (positiveToString x m e).
Proof.
  unfold positiveToString.
  destruct (shortest_from _ _ _ _ _ _) as [s0 e0].
  destruct (s0 mod 10 =? 0)%Z;
    repeat match goal with
           | |- number_chars (if ?b then _ else _) => destruct b
           | |- number_chars ((if ?b then _ else _) ++ _) => destruct b
           end;
    number_chars_parts.
Qed.

Lemma toString_number_chars (x : number) : number_chars (toString x).
Proof.
  unfold toString. destruct (Prim2SF x) as [s | s | | s m e].
  - vm_compute; repeat constructor.
  - destruct s; vm_compute; repeat constructor.
  - vm_compute; repeat constructor.
  - destruct s; (apply number_chars_app;
                 [vm_compute; repeat constructor
                 | apply positiveToString_number_chars]).
Qed.

Lemma number_char_not_LF (c : char) :
  number_char c = true -> (c =? LF)%N = false.
Proof.
  intros H. destruct (c =? LF)%N eqn:E; [|reflexivity].
  apply N.eqb_eq in E. subst c. discriminate H.
Qed.

Lemma digits_lf_free (w : jsstring) :
  Forall (fun c => isDigit c = true) w -> lf_free w.
Proof.
  intros H. eapply Forall_impl; [|exact H].
  intros c Hc. now apply number_char_not_LF, digit_number_char.
Qed.

Lemma lf_free_app (s t : jsstring) : lf_free s -> lf_free t -> lf_free (s ++ t).
Proof. intros Hs Ht. apply Forall_app. auto. Qed.

Lemma converted_timecode_lf_free (fps : number) (ts : jsstring) :
  converted_timecode fps ts -> lf_free ts.
Proof.
  intros (tc & Hshape & Hconv).
  apply timecode_shape_split in Hshape.
  destruct Hshape as (h & m & s & f & Hsplit & [Hh _] & [Hm _] & [Hs _] & _).
  rewrite (convertTimecode_split tc fps h m s f Hsplit) in Hconv.
  injection Hconv as <-.
  assert (P2 : forall w, Forall (fun c => isDigit c = true) w ->
                         lf_free (padStart 2 zero_digit w)).
  { intros w Hw. apply padStart_Forall; [reflexivity | now apply digits_lf_free]. }
  repeat first [ apply lf_free_app; [now auto|]
               | apply Forall_cons; [reflexivity|] ].
  apply padStart_Forall; [reflexivity|].
  eapply Forall_impl; [|apply toString_number_chars].
  intros c. apply number_char_not_LF.
Qed.

(* ================================================================= *)
(** ** Further properties: the layout of the document *)

Lemma digit_not_white (c : char) : isDigit c = true -> isWhiteSpace c = false.
Proof.
  unfold isDigit. intros H. apply andb_true_iff in H. destruct H as [H1 H2].
  apply N.leb_le in H1, H2.
  assert (E : In c digit_units).
  { unfold digit_units. simpl.
    assert (c = 48 \/ c = 49 \/ c = 50 \/ c = 51 \/ c = 52 \/ c = 53
            \/ c = 54 \/ c = 55 \/ c = 56 \/ c = 57)%N by lia.
    intuition. }
  unfold digit_units in E. simpl in E.
  repeat (destruct E as [<-|E]; [reflexivity|]). destruct E.
Qed.

Lemma ofUint_nil (u : Decimal.uint) : ofUint u = [] -> u = Decimal.Nil.
Proof. destruct u; simpl; [reflexivity | discriminate..]. Qed.

Lemma ofN_not_nil (n : N) : ofN n <> [].
Proof.
  unfold ofN. intros E. apply ofUint_nil in E.
  destruct n as [|p]; [discriminate E|].
  now apply (Unsigned.to_uint_nonnil p).
Qed.

Lemma ofN_starts_solid (n : N) : starts_solid (ofN n).
Proof.
  pose proof (ofN_not_nil n) as Hne. pose proof (ofN_digits n) as Hd.
  destruct (ofN n) as [|a t]; [contradiction|].
  exists a, t. split; [reflexivity|].
  inversion Hd; subst. now apply digit_not_white.
Qed.

Lemma starts_solid_app (s t : jsstring) : starts_solid s -> starts_solid (s ++ t).
Proof. intros (a & u & -> & Ha). exists a, (u ++ t). auto. Qed.

Lemma ends_solid_app (s t : jsstring) : ends_solid t -> ends_solid (s ++ t).
Proof.
  intros (u & c & -> & Hc). exists (s ++ u), c.
  split; [now rewrite app_assoc | exact Hc].
Qed.

Lemma clean_line_ends (l : jsstring) : clean_line l -> ends_solid l.
Proof.
  intros (Hne & _ & Ht).
  destruct (trim_ends l) as [E | (a & t & c & Ha & Hc & [[E ->] | E])];
    rewrite Ht in E; subst l.
  - contradiction.
  - exists [], c. auto.
  - exists (a :: t), c. auto.
Qed.

Lemma clean_lines_end (lines : list jsstring) :
  lines <> [] -> Forall clean_line lines -> ends_solid (join [LF] lines).
Proof.
  intros Hne Hall. induction Hall as [|l rest Hl Hrest IH]; [contradiction|].
  destruct rest as [|l2 rest]; [now apply clean_line_ends|].
  change (join [LF] (l :: l2 :: rest))
    with (l ++ [LF] ++ join [LF] (l2 :: rest)).
  apply ends_solid_app, ends_solid_app, IH. discriminate.
Qed.

Lemma clean_text_ends (c : subtitle) : clean_text c -> ends_solid (text_of c).
Proof.
  intros (lines & Hne & Hall & Ht). unfold text_of. rewrite Ht.
  now apply clean_lines_end.
Qed.

Lemma block_starts (index : nat) (c : subtitle) : starts_solid (block index c).
Proof. unfold block. apply starts_solid_app, ofN_starts_solid. Qed.

Lemma block_ends (index : nat) (c : subtitle) :
  clean_text c -> ends_solid (block index c).
Proof.
  intros H. unfold block.
  repeat apply ends_solid_app. now apply clean_text_ends.
Qed.

Lemma entry_block (index : nat) (c : subtitle) :
  entry index c = block index c ++ [LF; LF].
Proof.
  unfold entry, block. repeat (rewrite <- app_assoc; simpl). reflexivity.
Qed.

Lemma emit_blocks (subs : list subtitle) :
  subs <> [] ->
  forall index,
    emit_from index subs
    = join [LF; LF] (blocks_from index subs) ++ [LF; LF].
Proof.
  induction subs as [|c subs IH]; intros Hne index; [contradiction|].
  cbn [emit_from blocks_from]. rewrite entry_block.
  destruct subs as [|c2 subs]; [simpl; now rewrite app_nil_r|].
  rewrite IH by discriminate.
  cbn [blocks_from join]. now rewrite <- !app_assoc.
Qed.

Lemma blocks_start (subs : list subtitle) (index : nat) :
  subs <> [] -> starts_solid (join [LF; LF] (blocks_from index subs)).
Proof.
  destruct subs as [|c [|c2 subs]]; intros Hne; [contradiction|..];
    cbn [blocks_from join]; [|apply starts_solid_app]; apply block_starts.
Qed.

Lemma blocks_end (subs : list subtitle) :
  subs <> [] -> Forall clean_text subs ->
  forall index, ends_solid (join [LF; LF] (blocks_from index subs)).
Proof.
  intros Hne Hall. induction Hall as [|c rest Hc Hrest IH]; [contradiction|].
  intros index. destruct rest as [|c2 rest].
  - cbn [blocks_from join]. now apply block_ends.
  - change (join [LF; LF] (blocks_from index (c :: c2 :: rest)))
      with (block index c ++ [LF; LF]
            ++ join [LF; LF] (blocks_from (S index) (c2 :: rest))).
    apply ends_solid_app, ends_solid_app, IH. discriminate.
Qed.

Lemma trim_solid (s w : jsstring) :
  starts_solid s -> ends_solid s ->
  Forall (fun c => isWhiteSpace c = true) w ->
  trim (s ++ w) = s.
Proof.
  intros (a & t & -> & Ha) (u & c & E & Hc) Hw.
  unfold trim, trimStart. simpl. rewrite Ha.
  change (a :: t ++ w) with ((a :: t) ++ w).
  rewrite trimEnd_drops by exact Hw. rewrite E. now apply trimEnd_keeps.
Qed.

Lemma document_blocks (subs : list subtitle) :
  subs <> [] -> Forall clean_text subs ->
  trim (emit_from 0 subs) = join [LF; LF] (blocks_from 0 subs).
Proof.
  intros Hne Hall. rewrite emit_blocks by exact Hne.
  apply trim_solid;
    [now apply blocks_start | now apply blocks_end | repeat constructor].
Qed.

(** X3: a document that [parseAndConvert] returns is made of the blocks
    of the saved subtitles, in their order and numbered from 1, with
    exactly one empty line between two blocks and nothing after the last
    one; trimming the document again changes nothing. *)
Theorem document_layout (input : jsstring) (fps : number) (document : jsstring) :
  parseAndConvert input fps = Ok document ->
  exists subs,
    scan input fps = Ok subs /\ subs <> []
    /\ document = join [LF; LF] (blocks_from 0 subs)
    /\ starts_solid document /\ ends_solid document
    /\ trim document = document.
Proof.
  intros H.
  destruct (parseAndConvert_outcome input fps)
    as [(subs & Hs & Hne & E)|[_ E]]; rewrite E in H; [|discriminate].
  injection H as <-. exists subs.
  pose proof (scan_clean_text input fps subs Hs) as Hclean.
  rewrite (document_blocks subs Hne Hclean).
  repeat split; auto using blocks_start, blocks_end.
  rewrite <- (document_blocks subs Hne Hclean) at 1 2.
  rewrite trim_idempotent. reflexivity.
Qed.

Lemma document_layout_witness :
  exists subs,
    scan sample_input 24%float = Ok subs /\ subs <> []
    /\ sample_document = join [LF; LF] (blocks_from 0 subs)
    /\ starts_solid sample_document /\ ends_solid sample_document
    /\ trim sample_document = sample_document.
Proof.
  apply (document_layout sample_input 24%float sample_document).
  vm_compute. reflexivity.
Defined.

(* ================================================================= *)
(** ** Further properties: the number of entries that is reported *)

Lemma count_pieces_lf_free (w rest : jsstring) :
  lf_free w ->
  count_pieces [LF; LF] 0 (w ++ rest) = count_pieces [LF; LF] 0 rest.
Proof.
  induction 1 as [|c w Hc _ IH]; [reflexivity|].
  cbn [app count_pieces startsWith].
  rewrite N.eqb_sym, Hc. exact IH.
Qed.

Lemma count_pieces_single_LF (q rest : jsstring) :
  q <> [] -> lf_free q ->
  count_pieces [LF; LF] 0 (LF :: q ++ rest)
  = count_pieces [LF; LF] 0 (q ++ rest).
Proof.
  intros Hne Hq. destruct q as [|c q]; [contradiction|].
  inversion Hq as [|? ? Hc _]; subst.
  cbn [app count_pieces startsWith].
  rewrite N.eqb_refl, (N.eqb_sym LF c), Hc. reflexivity.
Qed.

Lemma count_pieces_spaced (b rest : jsstring) :
  spaced b ->
  count_pieces [LF; LF] 0 (b ++ rest) = count_pieces [LF; LF] 0 rest.
Proof.
  intros (pieces & Hne & Hall & ->).
  induction Hall as [|q more [Hq Hlf] Hmore IH]; [contradiction|].
  destruct more as [|q2 more].
  - cbn [join]. now apply count_pieces_lf_free.
  - change (join [LF] (q :: q2 :: more))
      with (q ++ [LF] ++ join [LF] (q2 :: more)).
    rewrite <- app_assoc, count_pieces_lf_free by exact Hlf.
    inversion Hmore as [|? ? [Hq2 Hlf2] _]; subst.
    cbn [app].
    assert (E : exists t, join [LF] (q2 :: more) = q2 ++ t).
    { destruct more; [exists []; now rewrite app_nil_r | eexists; reflexivity]. }
    destruct E as (t & E). rewrite E at 1. rewrite <- app_assoc.
    rewrite count_pieces_single_LF by assumption.
    rewrite app_assoc, <- E. apply IH. discriminate.
Qed.

Lemma count_pieces_blocks (bs : list jsstring) :
  bs <> [] -> Forall spaced bs ->
  count_pieces [LF; LF] 0 (join [LF; LF] bs) = length bs.
Proof.
  intros Hne Hall. induction Hall as [|b more Hb Hmore IH]; [contradiction|].
  destruct more as [|b2 more].
  - cbn [join length]. rewrite <- (app_nil_r b).
    now rewrite count_pieces_spaced.
  - change (join [LF; LF] (b :: b2 :: more))
      with (b ++ [LF; LF] ++ join [LF; LF] (b2 :: more)).
    rewrite count_pieces_spaced by exact Hb.
    cbn [app count_pieces startsWith length Nat.sub].
    rewrite N.eqb_refl. cbn [andb]. f_equal. apply IH. discriminate.
Qed.

Lemma block_spaced (fps : number) (index : nat) (c : subtitle) :
  timed fps c -> clean_text c -> spaced (block index c).
Proof.
  intros [Hstart Hend] (lines & Hne & Hall & Ht).
  exists (ofN (N.of_nat (index + 1))
          :: (startTime c ++ lit " --> " ++ endTime c) :: lines).
  split; [discriminate|]. split.
  - constructor; [split; [apply ofN_not_nil | apply digits_lf_free, ofN_digits]|].
    constructor.
    + split; [destruct (startTime c); discriminate|].
      apply lf_free_app; [eapply converted_timecode_lf_free; eauto|].
      apply lf_free_app; [vm_compute; repeat constructor|].
      eapply converted_timecode_lf_free; eauto.
    + eapply Forall_impl; [|exact Hall]. intros l (H1 & H2 & _). auto.
  - unfold block, text_of. rewrite Ht.
    destruct lines as [|l lines]; [contradiction|].
    cbn [join]. repeat (rewrite <- app_assoc; simpl). reflexivity.
Qed.

Lemma blocks_spaced (fps : number) (subs : list subtitle) :
  Forall (fun c => timed fps c /\ clean_text c) subs ->
  forall index, Forall spaced (blocks_from index subs).
Proof.
  induction 1 as [|c subs [Ht Hc] _ IH]; intros index; simpl; constructor;
    [now apply (block_spaced fps) | apply IH].
Qed.

Lemma blocks_length (subs : list subtitle) (index : nat) :
  length (blocks_from index subs) = length subs.
Proof. revert index. induction subs; intros; simpl; auto. Qed.

Lemma scan_trim (input : jsstring) (fps : number) :
  scan (trim input) fps = scan input fps.
Proof. unfold scan. now rewrite trim_idempotent. Qed.

Lemma scan_blank (input : jsstring) (fps : number) :
  trim input = [] -> scan input fps = Ok [].
Proof. intros E. unfold scan. rewrite E. reflexivity. Qed.

(** X4: when the scan of a transcript saves at least one subtitle,
    [convertToSRT] puts the document in the output area and reports
    success, and the number of entries in its message is the number of
    saved subtitles. *)
Theorem convertToSRT_reports_count
        (input : jsstring) (fps : number) (p : page) (subs : list subtitle) :
  scan input fps = Ok subs -> subs <> [] ->
  convertToSRT input fps p = success_page subs.
Proof.
  intros Hs Hne. unfold convertToSRT.
  destruct (is_empty (trim input)) eqn:He.
  - destruct (trim input) eqn:Et; [|discriminate He].
    rewrite (scan_blank input fps Et) in Hs. injection Hs as <-. contradiction.
  - unfold parseAndConvert. rewrite scan_trim, Hs. cbn [bind].
    destruct subs as [|c subs]; [contradiction|]. cbn [length Nat.eqb].
    pose proof (scan_clean_text input fps _ Hs) as Hclean.
    destruct (scan_ok input fps) as (subs' & E & Htimed).
    rewrite Hs in E. injection E as <-.
    rewrite (document_blocks (c :: subs)) by (auto; discriminate).
    unfold showStatus, set_output, success_page, converted. cbn [outputText_value].
    rewrite count_pieces_blocks.
    + now rewrite blocks_length.
    + discriminate.
    + apply (blocks_spaced fps). rewrite Forall_forall in *.
      intros x Hx. split; [now apply Htimed | now apply Hclean].
Qed.

Lemma convertToSRT_reports_count_witness :
  convertToSRT sample_input 24%float some_page
  = success_page
      [ {| startTime := lit "00:00:03,625"; endTime := lit "00:00:06,833";
           text := Some (lit "Hello world") |};
        {| startTime := lit "00:00:06,875"; endTime := lit "00:00:09,417";
           text := Some (lit "Second line") |} ].
Proof.
  apply (convertToSRT_reports_count sample_input 24%float some_page).
  - vm_compute. reflexivity.
  - discriminate.
Defined.

(* ================================================================= *)
(** ** Further properties: white space around the transcript and its lines *)

Lemma dropWhile_app_stop (p : char -> bool) (s t : jsstring) :
  dropWhile p s <> [] -> dropWhile p (s ++ t) = dropWhile p s ++ t.
Proof.
  induction s as [|c s IH]; simpl; [contradiction|].
  destruct (p c); [exact IH | reflexivity].
Qed.

Lemma dropWhile_nil_all (p : char -> bool) (s : jsstring) :
  dropWhile p s = [] -> Forall (fun c => p c = true) s.
Proof.
  induction s as [|c s IH]; simpl; [constructor|].
  destruct (p c) eqn:Hc; [|discriminate]. intros E. constructor; auto.
Qed.

Lemma trim_white_right (s w : jsstring) :
  Forall (fun c => isWhiteSpace c = true) w -> trim (s ++ w) = trim s.
Proof.
  intros Hw. unfold trim, trimStart.
  destruct (dropWhile isWhiteSpace s) as [|a u] eqn:E.
  - rewrite dropWhile_all by now apply dropWhile_nil_all.
    pose proof (dropWhile_split isWhiteSpace w) as (v & Ev & _).
    assert (D : dropWhile isWhiteSpace w = []).
    { clear Ev. induction Hw as [|c w Hc _ IH]; simpl; [reflexivity|].
      now rewrite Hc. }
    now rewrite D.
  - rewrite dropWhile_app_stop by (rewrite E; discriminate).
    rewrite E. now apply trimEnd_drops.
Qed.

Lemma trim_white_left (w s : jsstring) :
  Forall (fun c => isWhiteSpace c = true) w -> trim (w ++ s) = trim s.
Proof.
  intros Hw. unfold trim, trimStart. now rewrite dropWhile_all.
Qed.

Lemma trim_split (s : jsstring) :
  exists w1 w2,
    s = w1 ++ trim s ++ w2
    /\ Forall (fun c => isWhiteSpace c = true) w1
    /\ Forall (fun c => isWhiteSpace c = true) w2.
Proof.
  destruct (dropWhile_split isWhiteSpace s) as (w1 & E1 & H1).
  destruct (trimEnd_split (dropWhile isWhiteSpace s)) as (w2 & E2 & H2).
  exists w1, w2. unfold trim, trimStart. rewrite <- E2. auto.
Qed.

(** X5: white space before and after the transcript (spaces, tabs, empty
    lines, a byte order mark) has no effect: the conversion returns the
    same document or fails with the same message. *)
Theorem surrounding_white_space_ignored
        (before input after : jsstring) (fps : number) :
  Forall (fun c => isWhiteSpace c = true) before ->
  Forall (fun c => isWhiteSpace c = true) after ->
  parseAndConvert (before ++ input ++ after) fps = parseAndConvert input fps.
Proof.
  intros Hb Ha. unfold parseAndConvert, scan.
  now rewrite trim_white_left, trim_white_right.
Qed.

Lemma surrounding_white_space_ignored_witness :
  parseAndConvert ([65279%N; LF] ++ sample_input ++ [CR; LF; 32%N]) 24%float
  = parseAndConvert sample_input 24%float.
Proof.
  apply (surrounding_white_space_ignored [65279%N; LF] sample_input
           [CR; LF; 32%N] 24%float);
    repeat constructor.
Defined.

Lemma step_trim (fps : number) (i : nat) (st : state) (a b : jsstring) :
  trim a = trim b -> step fps i st a = step fps i st b.
Proof. intros E. unfold step. now rewrite E. Qed.

Lemma loop_trim (fps : number) (lines lines' : list jsstring) :
  Forall2 (fun a b => trim a = trim b) lines lines' ->
  forall i st, loop fps i lines st = loop fps i lines' st.
Proof.
  induction 1 as [|a b l l' E _ IH]; intros i st; simpl; [reflexivity|].
  rewrite (step_trim fps i st a b E).
  destruct (step fps i st b); simpl; auto.
Qed.

Lemma to_crlf_app (s t : jsstring) : to_crlf (s ++ t) = to_crlf s ++ to_crlf t.
Proof. apply flat_map_app. Qed.

Lemma to_crlf_white (w : jsstring) :
  Forall (fun c => isWhiteSpace c = true) w ->
  Forall (fun c => isWhiteSpace c = true) (to_crlf w).
Proof.
  induction 1 as [|c w Hc _ IH]; simpl; [constructor|].
  apply Forall_app. split; [|exact IH].
  destruct (c =? LF)%N; repeat constructor. exact Hc.
Qed.

Lemma to_crlf_solid (c : char) :
  isWhiteSpace c = false -> to_crlf [c] = [c].
Proof.
  intros Hc. unfold to_crlf. simpl.
  destruct (c =? LF)%N eqn:E; [|reflexivity].
  apply N.eqb_eq in E. subst c. discriminate Hc.
Qed.

Lemma trim_to_crlf (s : jsstring) : trim (to_crlf s) = to_crlf (trim s).
Proof.
  destruct (trim_split s) as (w1 & w2 & E & H1 & H2).
  rewrite E at 1. rewrite !to_crlf_app.
  rewrite trim_white_left, trim_white_right by now apply to_crlf_white.
  destruct (trim_ends s) as [Et | (a & t & c & Ha & Hc & [[Et _] | Et])];
    rewrite Et.
  - reflexivity.
  - rewrite (to_crlf_solid a Ha). now apply trim_fixed_one.
  - change (a :: t ++ [c]) with ([a] ++ t ++ [c]).
    rewrite !to_crlf_app, (to_crlf_solid a Ha), (to_crlf_solid c Hc).
    now apply trim_fixed.
Qed.

Lemma lines_to_crlf (s : jsstring) :
  Forall2 (fun a b => a = b \/ a = b ++ [CR])
          (splitBy (N.eqb LF) (to_crlf s)) (splitBy (N.eqb LF) s).
Proof.
  induction s as [|c s IH]; [repeat constructor|].
  cbn [to_crlf flat_map]. fold (to_crlf s).
  rewrite (N.eqb_sym c LF).
  cbn [splitBy]. destruct (LF =? c)%N eqn:Hc.
  - cbn [app splitBy]. rewrite N.eqb_refl.
    change (LF =? CR)%N with false. cbn iota.
    constructor; [right; reflexivity | exact IH].
  - cbn [app splitBy]. rewrite Hc.
    destruct (splitBy (N.eqb LF) (to_crlf s)) as [|a l] eqn:Ea;
      [now apply splitBy_not_nil in Ea|].
    destruct (splitBy (N.eqb LF) s) as [|b l'] eqn:Eb;
      [now apply splitBy_not_nil in Eb|].
    inversion IH as [|? ? ? ? Hab Hl]; subst.
    constructor; [|exact Hl].
    destruct Hab as [-> | ->]; [left | right]; reflexivity.
Qed.

(** X6: a transcript with Windows line ends converts as the same
    transcript with plain line feeds: the carriage return that stays at
    the end of a line is trimmed with it. *)
Theorem windows_line_ends_ignored (input : jsstring) (fps : number) :
  parseAndConvert (to_crlf input) fps = parseAndConvert input fps.
Proof.
  unfold parseAndConvert, scan. rewrite trim_to_crlf.
  rewrite (loop_trim fps _ (splitBy (N.eqb LF) (trim input))); [reflexivity|].
  eapply Forall2_impl; [|apply lines_to_crlf].
  intros a b [-> | ->]; [reflexivity|].
  apply trim_white_right. repeat constructor.
Qed.

(* ================================================================= *)
(** ** Further properties: the fields of a time stamp *)

Lemma digits12_padded_two (w : jsstring) :
  digits12 w ->
  length (padStart 2 zero_digit w) = 2
  /\ Forall (fun c => isDigit c = true) (padStart 2 zero_digit w).
Proof.
  intros [Hd [H1 H2]]. split.
  - rewrite padStart_length. lia.
  - now apply padStart_Forall.
Qed.

(** X7: in every subtitle that the scan saves, the start and the end read
    [hh:mm:ss,ms] where [hh], [mm] and [ss] are exactly two decimal digits
    each and [ms] has three code units or more, all of them code units of
    the text of a number. *)
Theorem timestamp_fields
        (input : jsstring) (fps : number) (subs : list subtitle)
        (c : subtitle) (ts : jsstring) :
  scan input fps = Ok subs -> In c subs ->
  ts = startTime c \/ ts = endTime c ->
  exists hh mm ss ms,
    ts = hh ++ lit ":" ++ mm ++ lit ":" ++ ss ++ lit "," ++ ms
    /\ length hh = 2 /\ length mm = 2 /\ length ss = 2
    /\ Forall (fun c => isDigit c = true) (hh ++ mm ++ ss)
    /\ 3 <= length ms /\ number_chars ms.
Proof.
  intros Hscan Hin Hts.
  destruct (scan_ok input fps) as (subs' & E & Hall).
  rewrite Hscan in E. injection E as <-.
  rewrite Forall_forall in Hall. destruct (Hall c Hin) as [[Hstart Hend] _].
  assert (Hconv : converted_timecode fps ts) by (destruct Hts; now subst).
  destruct Hconv as (tc & Hshape & Hconv).
  apply timecode_shape_split in Hshape.
  destruct Hshape as (h & m & s & f & Hsplit & Hh & Hm & Hs & _).
  rewrite (convertTimecode_split tc fps h m s f Hsplit) in Hconv.
  injection Hconv as <-.
  destruct (digits12_padded_two h Hh) as [Lh Dh].
  destruct (digits12_padded_two m Hm) as [Lm Dm].
  destruct (digits12_padded_two s Hs) as [Ls Ds].
  do 4 eexists. split; [reflexivity|].
  do 3 (split; [assumption|]).
  split.
  { apply Forall_app. split; [assumption|].
    apply Forall_app. split; assumption. }
  split; [rewrite padStart_length; lia|].
  apply padStart_Forall; [reflexivity | apply toString_number_chars].
Qed.

Lemma timestamp_fields_witness :
  exists hh mm ss ms,
    lit "00:00:06,833" = hh ++ lit ":" ++ mm ++ lit ":" ++ ss ++ lit "," ++ ms
    /\ length hh = 2 /\ length mm = 2 /\ length ss = 2
    /\ Forall (fun c => isDigit c = true) (hh ++ mm ++ ss)
    /\ 3 <= length ms /\ number_chars ms.
Proof.
  apply (timestamp_fields sample_input 24%float
           [ {| startTime := lit "00:00:03,625"; endTime := lit "00:00:06,833";
                text := Some (lit "Hello world") |};
             {| startTime := lit "00:00:06,875"; endTime := lit "00:00:09,417";
                text := Some (lit "Second line") |} ]
           {| startTime := lit "00:00:03,625"; endTime := lit "00:00:06,833";
              text := Some (lit "Hello world") |}).
  - vm_compute. reflexivity.
  - simpl. left. reflexivity.
  - right. reflexivity.
Defined.

(* ================================================================= *)
(** ** Further properties: the frame rates of the page *)

Lemma digit_In (c : char) : isDigit c = true -> In c digit_units.
Proof.
  unfold isDigit. intros H. apply andb_true_iff in H. destruct H as [H1 H2].
  apply N.leb_le in H1, H2. unfold digit_units. simpl.
  assert (c = 48 \/ c = 49 \/ c = 50 \/ c = 51 \/ c = 52 \/ c = 53
          \/ c = 54 \/ c = 55 \/ c = 56 \/ c = 57)%N by lia.
  intuition.
Qed.

Lemma digits12_frame_text (f : jsstring) : digits12 f -> In f frame_texts.
Proof.
  intros [Hd [H1 H2]]. unfold frame_texts. apply in_app_iff.
  destruct f as [|a [|b [|x f]]]; simpl in H1, H2; try lia.
  - left. apply in_map_iff. exists a. split; [reflexivity|].
    inversion Hd; subst. now apply digit_In.
  - right. apply in_map_iff. exists (a, b). split; [reflexivity|].
    inversion Hd as [|? ? Ha Hd']; subst. inversion Hd'; subst.
    apply in_prod; now apply digit_In.
Qed.

Lemma supported_rates_fit :
  forallb (fun fps => forallb (milliseconds_fit fps) frame_texts)
          supported_rates = true.
Proof. vm_compute. reflexivity. Qed.

(** X8: at each frame rate that the page offers, a frame number of one or
    two digits that lies below the frame rate gives a millisecond field of
    exactly three decimal digits: the time stamp is a valid one. *)
Theorem supported_rates_three_digits (fps : number) (f : jsstring) :
  In fps supported_rates -> digits12 f ->
  PrimFloat.ltb (parseInt f) fps = true ->
  let field :=
    padStart 3 zero_digit (toString (framesToMilliseconds (parseInt f) fps)) in
  length field = 3 /\ Forall (fun c => isDigit c = true) field.
Proof.
  intros Hfps Hf Hlt field.
  pose proof supported_rates_fit as H.
  rewrite forallb_forall in H. specialize (H fps Hfps).
  rewrite forallb_forall in H.
  specialize (H f (digits12_frame_text f Hf)).
  unfold milliseconds_fit in H. rewrite Hlt in H.
  apply andb_true_iff in H. destruct H as [Hlen Hd].
  apply Nat.leb_le in Hlen. rewrite forallb_forall in Hd.
  subst field. split.
  - rewrite padStart_length. lia.
  - apply padStart_Forall; [reflexivity|]. now apply Forall_forall.
Qed.

Lemma supported_rates_three_digits_witness :
  length (padStart 3 zero_digit
            (toString (framesToMilliseconds (parseInt (lit "29"))
                                            (of_Q 2997 100)))) = 3
  /\ Forall (fun c => isDigit c = true)
            (padStart 3 zero_digit
               (toString (framesToMilliseconds (parseInt (lit "29"))
                                               (of_Q 2997 100)))).
Proof.
  apply (supported_rates_three_digits (of_Q 2997 100) (lit "29")).
  - simpl. right. right. right. left. reflexivity.
  - split; [repeat constructor | simpl; lia].
  - vm_compute. reflexivity.
Defined.

(* ================================================================= *)
(** ** Further properties: how many subtitles, and which lines count *)

Lemma step_started (fps : number) (i : nat) (st st' : state) (raw : jsstring) :
  step fps i st raw = Ok st' ->
  started st' <= started st + (if is_pair_line raw then 1 else 0).
Proof.
  unfold step, is_pair_line, started.
  destruct (is_empty (trim raw)) eqn:Hline.
  - destruct (currentSubtitle st) as [cur|] eqn:Hcur;
      [destruct (subtitleText st) as [|t ts] eqn:Ht|];
      intros E; injection E as <-; simpl;
      rewrite ?Hcur, ?length_app; simpl; lia.
  - destruct (exec timecodePattern (trim raw)) as [m|] eqn:Hm.
    + destruct (exec_timecodePattern _ _ Hm) as [S1 S2].
      destruct (convertTimecode_shape _ fps S1) as (ts1 & ->).
      destruct (convertTimecode_shape _ fps S2) as (ts2 & ->).
      cbn [bind].
      destruct (currentSubtitle st) as [cur|] eqn:Hcur;
        [destruct (subtitleText st) as [|t ts] eqn:Ht|];
        intros E; injection E as <-; simpl;
        rewrite ?Hcur, ?length_app; simpl; lia.
    + destruct (currentSubtitle st) as [cur|] eqn:Hcur;
        intros E; injection E as <-; simpl; rewrite ?Hcur; lia.
Qed.

Lemma loop_started (fps : number) (lines : list jsstring) :
  forall i st st',
    loop fps i lines st = Ok st' ->
    started st' <= started st + length (filter is_pair_line lines).
Proof.
  induction lines as [|raw rest IH]; intros i st st'; simpl.
  - intros E. injection E as <-. lia.
  - destruct (step fps i st raw) as [st1|message] eqn:E1; simpl;
      [|discriminate].
    intros E. apply IH in E. apply step_started in E1.
    destruct (is_pair_line raw); simpl; lia.
Qed.

Lemma finish_started (st : state) : length (finish st) <= started st.
Proof.
  unfold finish, started.
  destruct (currentSubtitle st) as [cur|];
    [destruct (subtitleText st) as [|t ts]|]; rewrite ?length_app; simpl; lia.
Qed.

(** X9: the scan saves at most one subtitle for each line on which it
    finds a pair of time codes: no subtitle comes from anything else. *)
Theorem subtitles_bounded_by_pair_lines
        (input : jsstring) (fps : number) (subs : list subtitle) :
  scan input fps = Ok subs ->
  length subs
  <= length (filter is_pair_line (splitBy (N.eqb LF) (trim input))).
Proof.
  unfold scan.
  destruct (loop fps 0 (splitBy (N.eqb LF) (trim input)) initial)
    as [st|message] eqn:E; simpl; [|discriminate].
  intros H. injection H as <-.
  apply loop_started in E. pose proof (finish_started st).
  unfold started in E at 2. simpl in E. lia.
Qed.

Lemma subtitles_bounded_by_pair_lines_witness :
  length [ {| startTime := lit "00:00:06,875"; endTime := lit "00:00:09,417";
              text := Some (lit "Second line") |} ]
  <= length (filter is_pair_line
               (splitBy (N.eqb LF)
                  (trim (lit "00;00;03;15 - 00;00;04;15" ++ [LF]
                         ++ lit "00;00;06;21 - 00;00;09;10" ++ [LF]
                         ++ lit "Second line")))).
Proof.
  apply (subtitles_bounded_by_pair_lines _ 24%float).
  vm_compute. reflexivity.
Defined.

Lemma loop_outside_cue (fps : number) (lines : list jsstring) :
  (forall raw, In raw lines -> is_pair_line raw = false) ->
  forall i st,
    currentSubtitle st = None -> loop fps i lines st = Ok st.
Proof.
  induction lines as [|raw rest IH]; intros H i st Hcur; simpl; [reflexivity|].
  assert (E : step fps i st raw = Ok st).
  { unfold step. rewrite Hcur.
    destruct (is_empty (trim raw)); [reflexivity|].
    pose proof (H raw (or_introl eq_refl)) as Hp. unfold is_pair_line in Hp.
    destruct (exec timecodePattern (trim raw)); [discriminate | reflexivity]. }
  rewrite E. simpl. apply IH; [|exact Hcur]. intros r Hr. apply H. now right.
Qed.

(** X10: an empty line ends the subtitle in progress when it has text:
    the subtitle is saved, and every later line is dropped until a line
    holds a pair of time codes. *)
Theorem text_after_empty_line_dropped
        (fps : number) (i : nat) (st : state) (cur : subtitle)
        (blank : jsstring) (more : list jsstring) :
  currentSubtitle st = Some cur -> subtitleText st <> [] ->
  trim blank = [] ->
  (forall raw, In raw more -> is_pair_line raw = false) ->
  loop fps i (blank :: more) st
  = Ok {| subtitles := subtitles st ++ [with_text cur (subtitleText st)];
          currentSubtitle := None;
          subtitleText := [] |}.
Proof.
  intros Hcur Htext Hblank Hmore. cbn [loop].
  unfold step at 1. rewrite Hblank, Hcur. cbn [is_empty].
  destruct (subtitleText st) as [|t ts] eqn:Et; [contradiction|].
  cbn [bind]. now apply loop_outside_cue.
Qed.

Lemma text_after_empty_line_dropped_witness :
  loop 24%float 2 [lit "  "; lit "a stray line"; lit "another one"] state_in_cue
  = Ok {| subtitles :=
            [ {| startTime := lit "00:00:03,625"; endTime := lit "00:00:06,833";
                 text := Some (lit "Hello world") |} ];
          currentSubtitle := None;
          subtitleText := [] |}.
Proof.
  apply (text_after_empty_line_dropped 24%float 2 state_in_cue
           {| startTime := lit "00:00:03,625"; endTime := lit "00:00:06,833";
              text := None |}).
  - reflexivity.
  - discriminate.
  - reflexivity.
  - intros raw [<-|[<-|[]]]; vm_compute; reflexivity.
Defined.

(* ================================================================= *)
(** ** Further properties: the text after the pair *)

Lemma app_assoc3 (a b c d : jsstring) :
  a ++ b ++ c ++ d = (a ++ b ++ c) ++ d.
Proof. now rewrite <- !app_assoc. Qed.

Lemma timecodePattern_layout (w : jsstring) (caps : list jsstring) :
  Matches timecodePattern w caps ->
  exists t1 mid t2, w = t1 ++ mid ++ t2 /\ caps = [t1; t2].
Proof.
  unfold timecodePattern. intros H.
  inversion H as [| ? ? ? ? ? ? Hg1 H1 |]; subst; clear H.
  inversion Hg1; subst; clear Hg1.
  inversion H1 as [| ? ? ? ? ? ? Hs1 H2 |]; subst; clear H1.
  inversion Hs1; subst; clear Hs1.
  inversion H2 as [| ? ? ? ? ? ? Hd H3 |]; subst; clear H2.
  inversion Hd; subst; clear Hd.
  inversion H3 as [| ? ? ? ? ? ? Hs2 Hg2 |]; subst; clear H3.
  inversion Hs2; subst; clear Hs2.
  inversion Hg2; subst; clear Hg2.
  repeat match goal with
         | H : Matches timecodeRegex _ _ |- _ =>
             apply timecodeRegex_shape in H; destruct H as [-> _]
         end.
  simpl. do 3 eexists. split; [|reflexivity].
  f_equal. apply app_assoc3.
Qed.

(** X11: the text that the loop takes after the pair is exactly what
    follows the match, trimmed, whenever the first place where the text
    of the second time code occurs in the line is the place where it was
    matched. *)
Theorem trailing_text_at_first_occurrence (line : jsstring) (m : match_result) :
  exec timecodePattern line = Some m ->
  indexOf line (group m 2)
  = Z.of_nat (index m + length (matched m) - length (group m 2)) ->
  line = firstn (index m) line ++ matched m
         ++ skipn (index m + length (matched m)) line
  /\ afterTimecode line m
     = trim (skipn (index m + length (matched m)) line).
Proof.
  intros Hexec Hidx.
  destruct (exec_from_sound timecodePattern line 0 m Hexec)
    as (pre & rest & Hline & Hi & M).
  simpl in Hi.
  destruct (timecodePattern_layout _ _ M) as (t1 & mid & t2 & Hw & Hg).
  assert (Hskip : skipn (index m + length (matched m)) line = rest).
  { rewrite Hline at 1. rewrite Hi, app_assoc, <- length_app.
    apply skipn_consumed. }
  split.
  - rewrite Hskip. rewrite Hline at 1. f_equal.
    rewrite Hline, Hi. rewrite firstn_app, firstn_all, Nat.sub_diag. simpl.
    now rewrite app_nil_r.
  - unfold afterTimecode, substring. rewrite Hidx, <- Nat2Z.inj_add, Nat2Z.id.
    assert (Hlen : length (group m 2) <= length (matched m)).
    { unfold group. rewrite Hg, Hw. simpl. rewrite !length_app. lia. }
    replace (index m + length (matched m) - length (group m 2)
             + length (group m 2))
      with (index m + length (matched m)) by lia.
    reflexivity.
Qed.

Lemma trailing_text_at_first_occurrence_witness :
  afterTimecode (lit "00;00;03;15 - 00;00;06;20 Hello")
    {| index := 0; matched := lit "00;00;03;15 - 00;00;06;20";
       groups := [lit "00;00;03;15"; lit "00;00;06;20"] |}
  = trim (skipn 25 (lit "00;00;03;15 - 00;00;06;20 Hello")).
Proof.
  refine (proj2 (trailing_text_at_first_occurrence
                   (lit "00;00;03;15 - 00;00;06;20 Hello")
                   {| index := 0; matched := lit "00;00;03;15 - 00;00;06;20";
                      groups := [lit "00;00;03;15"; lit "00;00;06;20"] |}
                   _ _)); vm_compute; reflexivity.
Defined.

(* ================================================================= *)
(** ** Further properties: frame zero *)

Lemma positive_rate (fps : number) :
  PrimFloat.ltb 0%float fps = true ->
  Prim2SF fps = S754_infinity false
  \/ exists m e, Prim2SF fps = S754_finite false m e.
Proof.
  rewrite ltb_spec.
  change (Prim2SF 0%float) with (S754_zero false).
  destruct (Prim2SF fps) as [s | s | | s m e]; simpl;
    try discriminate; destruct s; try discriminate; eauto.
Qed.

Lemma zero_frames (x fps : number) :
  Prim2SF x = S754_zero false -> PrimFloat.ltb 0%float fps = true ->
  Prim2SF (PrimFloat.mul (PrimFloat.div x fps) 1000%float) = S754_zero false.
Proof.
  intros Hx Hfps. rewrite mul_spec, div_spec, Hx.
  destruct (positive_rate fps Hfps) as [-> | (m & e & ->)]; reflexivity.
Qed.

Lemma round_zero (x : number) (s : bool) :
  Prim2SF x = S754_zero s -> toString (Math_round x) = lit "0".
Proof.
  intros H. unfold Math_round. rewrite H. unfold toString. now rewrite H.
Qed.

(** X12: at every frame rate above zero, finite or not, frame [0] or
    [00] gives the millisecond field [000]. *)
Theorem frame_zero_milliseconds
        (tc : jsstring) (fps : number) (h m s f : jsstring) :
  splitBy isSeparator tc = [h; m; s; f] ->
  f = lit "0" \/ f = lit "00" ->
  PrimFloat.ltb 0%float fps = true ->
  convertTimecode tc fps
  = Ok (padStart 2 zero_digit h ++ lit ":" ++ padStart 2 zero_digit m
        ++ lit ":" ++ padStart 2 zero_digit s ++ lit ",000").
Proof.
  intros Hsplit Hf Hfps.
  rewrite (convertTimecode_split tc fps h m s f Hsplit).
  assert (Hz : Prim2SF (parseInt f) = S754_zero false)
    by (destruct Hf; subst f; vm_compute; reflexivity).
  rewrite (round_zero _ false (zero_frames _ fps Hz Hfps)).
  reflexivity.
Qed.

Lemma frame_zero_milliseconds_witness :
  convertTimecode (lit "1:02:03:00") (of_Q 23976 1000)
  = Ok (padStart 2 zero_digit (lit "1") ++ lit ":"
        ++ padStart 2 zero_digit (lit "02") ++ lit ":"
        ++ padStart 2 zero_digit (lit "03") ++ lit ",000").
Proof.
  apply (frame_zero_milliseconds (lit "1:02:03:00") (of_Q 23976 1000)
           (lit "1") (lit "02") (lit "03") (lit "00")).
  - reflexivity.
  - right. reflexivity.
  - vm_compute. reflexivity.
Defined.

(* ================================================================= *)
(** ** Further properties: one block of the transcript *)

Lemma loop_app (fps : number) (l1 l2 : list jsstring) :
  forall i st,
    loop fps i (l1 ++ l2) st
    = (st1 <- loop fps i l1 st ;; loop fps (i + length l1) l2 st1).
Proof.
  induction l1 as [|raw l1 IH]; intros i st; simpl.
  - now rewrite Nat.add_0_r.
  - destruct (step fps i st raw) as [st1|message]; simpl; [|reflexivity].
    rewrite IH. now rewrite Nat.add_succ_r.
Qed.

Lemma loop_text_lines (fps : number) (lines : list jsstring) :
  (forall raw, In raw lines ->
               is_empty (trim raw) = false /\ is_pair_line raw = false) ->
  forall i st cur,
    currentSubtitle st = Some cur ->
    loop fps i lines st
    = Ok {| subtitles := subtitles st;
            currentSubtitle := Some cur;
            subtitleText := subtitleText st ++ map trim lines |}.
Proof.
  induction lines as [|raw rest IH]; intros H i st cur Hcur; simpl.
  - rewrite app_nil_r, <- Hcur. now destruct st.
  - destruct (H raw (or_introl eq_refl)) as [Hne Hp].
    unfold step at 1. rewrite Hne. unfold is_pair_line in Hp.
    destruct (exec timecodePattern (trim raw)); [discriminate|].
    rewrite Hcur. cbn [bind].
    rewrite (IH (fun r Hr => H r (or_intror Hr)) (S i)
               {| subtitles := subtitles st;
                  currentSubtitle := Some cur;
                  subtitleText := subtitleText st ++ [trim raw] |}
               cur eq_refl).
    cbn [subtitles subtitleText map]. now rewrite <- app_assoc.
Qed.

(** A block from a state between two cues, with the text that the loop
    takes after the pair. *)
Lemma block_scan
      (fps : number) (i : nat) (st : state) (pair blank : jsstring)
      (m : match_result) (lines : list jsstring) :
  currentSubtitle st = None -> subtitleText st = [] ->
  exec timecodePattern (trim pair) = Some m ->
  (forall raw, In raw lines ->
               is_empty (trim raw) = false /\ is_pair_line raw = false) ->
  trim blank = [] ->
  let first := if is_empty (afterTimecode (trim pair) m) then []
               else [afterTimecode (trim pair) m] in
  first ++ map trim lines <> [] ->
  exists s e,
    convertTimecode (group m 1) fps = Ok s
    /\ convertTimecode (group m 2) fps = Ok e
    /\ loop fps i (pair :: lines ++ [blank]) st
       = Ok {| subtitles :=
                 subtitles st
                 ++ [ {| startTime := s; endTime := e;
                         text := Some (join [LF] (first ++ map trim lines)) |} ];
               currentSubtitle := None;
               subtitleText := [] |}.
Proof.
  intros Hcur Htext Hm Hlines Hblank first Hne.
  destruct (exec_timecodePattern _ _ Hm) as [S1 S2].
  destruct (convertTimecode_shape _ fps S1) as (s & E1).
  destruct (convertTimecode_shape _ fps S2) as (e & E2).
  exists s, e. split; [exact E1|]. split; [exact E2|].
  cbn [loop]. unfold step at 1.
  assert (Hpair : is_empty (trim pair) = false).
  { destruct (trim pair); [|reflexivity].
    rewrite exec_empty_line in Hm. discriminate. }
  rewrite Hpair, Hm, Hcur, Htext, E1, E2. cbn [bind].
  rewrite loop_app.
  erewrite loop_text_lines; [|exact Hlines | reflexivity].
  cbn [bind loop subtitles currentSubtitle subtitleText].
  unfold step. rewrite Hblank. cbn [is_empty currentSubtitle subtitleText].
  change ([] ++ [afterTimecode (trim pair) m])
    with [afterTimecode (trim pair) m].
  fold first.
  destruct (first ++ map trim lines) as [|t ts] eqn:Et; [contradiction|].
  reflexivity.
Qed.

(** Where the text of the second time code first occurs at the place of
    its match, the loop takes what follows the match. *)
Lemma afterTimecode_at_match (line : jsstring) (m : match_result) :
  exec timecodePattern line = Some m ->
  indexOf line (group m 2)
  = Z.of_nat (index m + length (matched m) - length (group m 2)) ->
  afterTimecode line m = trim (skipn (index m + length (matched m)) line).
Proof.
  intros Hexec Hidx.
  destruct (exec_from_sound timecodePattern line 0 m Hexec)
    as (pre & rest & Hline & Hi & M).
  destruct (timecodePattern_layout _ _ M) as (t1 & mid & t2 & Hw & Hg).
  unfold afterTimecode, substring. rewrite Hidx, <- Nat2Z.inj_add, Nat2Z.id.
  assert (Hlen : length (group m 2) <= length (matched m)).
  { unfold group. rewrite Hg, Hw. simpl. rewrite !length_app. lia. }
  replace (index m + length (matched m) - length (group m 2)
           + length (group m 2))
    with (index m + length (matched m)) by lia.
  reflexivity.
Qed.

(** X13: between two cues, a block made of a pair line, lines of text and
    an empty line adds exactly one subtitle to the saved ones, provided
    that the text of the second time code does not occur in the pair line
    before the place where it was matched.  The times of the subtitle are
    the conversions of the two matched time codes, and its text is what
    follows the match on the pair line, trimmed, if that is not empty, and
    then the trimmed lines, in their order, joined by line feeds. *)
Theorem block_gives_one_subtitle
        (fps : number) (i : nat) (st : state) (pair blank : jsstring)
        (m : match_result) (lines : list jsstring) :
  currentSubtitle st = None -> subtitleText st = [] ->
  exec timecodePattern (trim pair) = Some m ->
  indexOf (trim pair) (group m 2)
  = Z.of_nat (index m + length (matched m) - length (group m 2)) ->
  (forall raw, In raw lines ->
               is_empty (trim raw) = false /\ is_pair_line raw = false) ->
  trim blank = [] ->
  let after := trim (skipn (index m + length (matched m)) (trim pair)) in
  let first := if is_empty after then [] else [after] in
  first ++ map trim lines <> [] ->
  exists s e,
    convertTimecode (group m 1) fps = Ok s
    /\ convertTimecode (group m 2) fps = Ok e
    /\ loop fps i (pair :: lines ++ [blank]) st
       = Ok {| subtitles :=
                 subtitles st
                 ++ [ {| startTime := s; endTime := e;
                         text := Some (join [LF] (first ++ map trim lines)) |} ];
               currentSubtitle := None;
               subtitleText := [] |}.
Proof.
  intros Hcur Htext Hm Hidx Hlines Hblank after first.
  subst first after.
  rewrite <- (afterTimecode_at_match (trim pair) m Hm Hidx).
  now apply block_scan.
Qed.

Lemma block_gives_one_subtitle_witness :
  exists s e,
    convertTimecode (lit "00;00;03;15") 24%float = Ok s
    /\ convertTimecode (lit "00;00;06;20") 24%float = Ok e
    /\ loop 24%float 0
         [lit "00;00;03;15 - 00;00;06;20 Hello"; lit "  world "; []] initial
       = Ok {| subtitles :=
                 [ {| startTime := s; endTime := e;
                      text := Some (join [LF] [lit "Hello"; lit "world"]) |} ];
               currentSubtitle := None;
               subtitleText := [] |}.
Proof.
  refine (block_gives_one_subtitle 24%float 0 initial
            (lit "00;00;03;15 - 00;00;06;20 Hello") []
            {| index := 0; matched := lit "00;00;03;15 - 00;00;06;20";
               groups := [lit "00;00;03;15"; lit "00;00;06;20"] |}
            [lit "  world "] eq_refl eq_refl _ _ _ eq_refl _).
  - vm_compute. reflexivity.
  - vm_compute. reflexivity.
  - intros raw [<-|[]]. split; vm_compute; reflexivity.
  - vm_compute. discriminate.
Defined.

(** X14: the lines that come before the first pair of time codes, a title
    for instance, are passed without any effect. *)
Theorem lines_before_first_pair_ignored
        (fps : number) (i : nat) (before rest : list jsstring) :
  (forall raw, In raw before -> is_pair_line raw = false) ->
  loop fps i (before ++ rest) initial
  = loop fps (i + length before) rest initial.
Proof.
  intros H. rewrite loop_app.
  now rewrite (loop_outside_cue fps before H i initial eq_refl).
Qed.

Lemma lines_before_first_pair_ignored_witness :
  loop 24%float 0
       ([lit "My film"; lit "transcript"] ++ [lit "00;00;03;15 - 00;00;06;20 Hi"])
       initial
  = loop 24%float (0 + length [lit "My film"; lit "transcript"])
         [lit "00;00;03;15 - 00;00;06;20 Hi"] initial.
Proof.
  apply (lines_before_first_pair_ignored 24%float 0
           [lit "My film"; lit "transcript"]
           [lit "00;00;03;15 - 00;00;06;20 Hi"]).
  intros raw [<-|[<-|[]]]; vm_compute; reflexivity.
Defined.
